(** * MTYA Movie Recap: the PCM-to-WAV encoder of [utils/audio.ts]

    A shallow embedding of [decode], [writeString], [encodeWAV],
    [createWavBlob] and [createWavUrl], together with the part of the
    browser platform they call ([atob], [ArrayBuffer], [Uint8Array],
    [Int16Array], [DataView], [Blob], [URL.createObjectURL]).

    Conventions.
    - A JavaScript exception is a [Throw] completion; every function that
      can throw returns a [completion].
    - Bytes are integers in [0, 256); a buffer is a [list Z].
    - JavaScript numbers are modelled by [Z].  The model is exact for
      integer-valued numbers whose products stay below 2^53 in magnitude
      ([exact_format]); theorems that speak about the value of a header
      field carry that hypothesis.
    - Strings are sequences of code units below 256 ([string]); a code unit
      above 255 is never in the base64 alphabet, so [atob] rejects it like
      any other foreign character.
    - Allocation is assumed to succeed: the engine's memory limit is not
      modelled.
    - A typed array reads its buffer in the byte order of the host, which
      is a parameter ([ByteOrder]) of [Int16Array_new] and [createWavBlob];
      a [DataView] setter is told the byte order by its last argument. *)

From stdpp Require Import base list.
From Stdlib Require Import ZArith String Ascii Lia.
Open Scope Z_scope.

Abbreviation length := Datatypes.length.

(** ** Completions *)

Inductive exception : Type :=
| InvalidCharacterError   (* DOMException thrown by atob *)
| RangeError.             (* thrown by typed-array and DataView bounds checks *)

Inductive completion (A : Type) : Type :=
| Normal (a : A)
| Throw (e : exception).

Arguments Normal {A} a.
Arguments Throw {A} e.

Definition bind {A B : Type} (m : completion A) (k : A -> completion B)
  : completion B :=
  match m with
  | Normal a => k a
  | Throw e => Throw e
  end.

Notation "'let*' x := m 'in' k" := (bind m (fun x => k))
  (at level 10, x name, m at level 100, k at level 200).

(** [for (let i = start; i < start + count; i++) body(i)], threading the
    state the body mutates; an exception leaves the loop. *)
Fixpoint for_upto {S : Type} (count : nat) (i : nat)
    (body : nat -> S -> completion S) (s : S) : completion S :=
  match count with
  | O => Normal s
  | Datatypes.S count' => let* s' := body i s in for_upto count' (Datatypes.S i) body s'
  end.

(** ** Platform: strings and [atob] *)

Module Platform.

Definition code_unit (c : ascii) : Z := Z.of_N (N_of_ascii c).

(** [s.charCodeAt(i)].  Out of range JavaScript answers NaN, which every
    integer store below converts to 0. *)
Definition charCodeAt (s : string) (i : nat) : Z :=
  match String.get i s with
  | Some c => code_unit c
  | None => 0
  end.

Definition ascii_whitespace (c : ascii) : bool :=
  let n := code_unit c in
  (n =? 9) || (n =? 10) || (n =? 12) || (n =? 13) || (n =? 32).

(** Position of a character in the standard base64 alphabet. *)
Definition base64_value (c : ascii) : option Z :=
  let n := code_unit c in
  if (65 <=? n) && (n <=? 90) then Some (n - 65)
  else if (97 <=? n) && (n <=? 122) then Some (n - 97 + 26)
  else if (48 <=? n) && (n <=? 57) then Some (n - 48 + 52)
  else if n =? 43 then Some 62
  else if n =? 47 then Some 63
  else None.

Definition is_pad (c : ascii) : bool := code_unit c =? 61.

(** Remove one or two trailing [=]. *)
Definition remove_padding (data : list ascii) : list ascii :=
  match rev data with
  | p :: q :: r =>
      if is_pad p then (if is_pad q then rev r else rev (q :: r)) else data
  | p :: r => if is_pad p then rev r else data
  | [] => data
  end.

Fixpoint base64_values (data : list ascii) : option (list Z) :=
  match data with
  | [] => Some []
  | c :: rest =>
      match base64_value c, base64_values rest with
      | Some v, Some vs => Some (v :: vs)
      | _, _ => None
      end
  end.

(** Four sextets make three bytes; a trailing group of three keeps 16 of
    its 18 bits, a trailing group of two keeps 8 of its 12. *)
Fixpoint sextets_to_bytes (vs : list Z) : list Z :=
  match vs with
  | a :: b :: c :: d :: rest =>
      let w := a * 262144 + b * 4096 + c * 64 + d in
      (w / 65536) :: ((w / 256) mod 256) :: (w mod 256) :: sextets_to_bytes rest
  | [a; b; c] =>
      let w := (a * 4096 + b * 64 + c) / 4 in
      [w / 256; w mod 256]
  | [a; b] => [(a * 64 + b) / 16]
  | _ => []
  end.

(** The "forgiving-base64 decode" of the HTML Standard, which [atob] runs. *)
Definition forgiving_base64_decode (data : list ascii) : option (list Z) :=
  let data := List.filter (fun c => negb (ascii_whitespace c)) data in
  let data :=
    if (length data mod 4 =? 0)%nat then remove_padding data else data in
  if (length data mod 4 =? 1)%nat then None
  else
    match base64_values data with
    | Some vs => Some (sextets_to_bytes vs)
    | None => None
    end.

Definition binary_string (bs : list Z) : string :=
  string_of_list_ascii (map (fun b => ascii_of_N (Z.to_N b)) bs).

Definition atob (base64 : string) : completion string :=
  match forgiving_base64_decode (list_ascii_of_string base64) with
  | Some bs => Normal (binary_string bs)
  | None => Throw InvalidCharacterError
  end.

(** ** Platform: buffers and views *)

(** [new ArrayBuffer(n)] and [new Uint8Array(n)]: [n] zero bytes. *)
Definition ArrayBuffer_new (byteLength : Z) : list Z :=
  replicate (Z.to_nat byteLength) 0.

Definition Uint8Array_new (len : nat) : list Z := replicate len 0.

Definition ToUint8 (v : Z) : Z := v mod 256.
Definition ToUint16 (v : Z) : Z := v mod 65536.
Definition ToUint32 (v : Z) : Z := v mod 4294967296.
Definition ToInt16 (v : Z) : Z :=
  let u := v mod 65536 in if u <? 32768 then u else u - 65536.

(** [bytes[i] = v] on a [Uint8Array]: the value is reduced modulo 256 and
    an index past the end is ignored. *)
Definition Uint8Array_set (bytes : list Z) (i : nat) (v : Z) : list Z :=
  <[i := ToUint8 v]> bytes.

(** Byte order of the machine the engine runs on; typed arrays use it. *)
Inductive ByteOrder : Type := LittleEndian | BigEndian.

Definition int16_of_bytes (host : ByteOrder) (b0 b1 : Z) : Z :=
  match host with
  | LittleEndian => ToInt16 (b0 + 256 * b1)
  | BigEndian => ToInt16 (b1 + 256 * b0)
  end.

Fixpoint int16_elements (host : ByteOrder) (buffer : list Z) : list Z :=
  match buffer with
  | b0 :: b1 :: rest => int16_of_bytes host b0 b1 :: int16_elements host rest
  | _ => []
  end.

(** [new Int16Array(buffer)]: a view of the whole buffer, RangeError when
    its byte length is not a multiple of 2. *)
Definition Int16Array_new (host : ByteOrder) (buffer : list Z)
  : completion (list Z) :=
  if Z.of_nat (length buffer) mod 2 =? 0
  then Normal (int16_elements host buffer)
  else Throw RangeError.

(** A [DataView] over a whole buffer.  [stores] is ghost state: the
    (offset, size) of every store made through the view, oldest first. *)
Record DataView : Type := mkDataView {
  bytes : list Z;
  stores : list (Z * Z)
}.

Definition DataView_new (buffer : list Z) : DataView :=
  {| bytes := buffer; stores := [] |}.

Fixpoint write_at (i : nat) (bs : list Z) (buffer : list Z) : list Z :=
  match bs with
  | [] => buffer
  | b :: bs' => write_at (S i) bs' (<[i := b]> buffer)
  end.

(** Byte [k] (0 = least significant) of a non-negative integer. *)
Definition byte_of (n : Z) (k : Z) : Z := Z.land (Z.shiftr n (8 * k)) 255.

(** Bytes of an integer in the order it is stored. *)
Definition raw_bytes (size : nat) (n : Z) (littleEndian : bool) : list Z :=
  let le := map (fun k => byte_of n (Z.of_nat k)) (seq 0 size) in
  if littleEndian then le else rev le.

(** SetViewValue: RangeError unless the whole value lies inside the view. *)
Definition store (view : DataView) (byteOffset : Z) (bs : list Z)
  : completion DataView :=
  let size := Z.of_nat (length bs) in
  if (0 <=? byteOffset) && (byteOffset + size <=? Z.of_nat (length (bytes view)))
  then Normal {| bytes := write_at (Z.to_nat byteOffset) bs (bytes view);
                 stores := stores view ++ [(byteOffset, size)] |}
  else Throw RangeError.

Definition setUint8 (view : DataView) (byteOffset value : Z) : completion DataView :=
  store view byteOffset [ToUint8 value].

Definition setUint16 (view : DataView) (byteOffset value : Z) (littleEndian : bool)
  : completion DataView :=
  store view byteOffset (raw_bytes 2 (ToUint16 value) littleEndian).

Definition setInt16 (view : DataView) (byteOffset value : Z) (littleEndian : bool)
  : completion DataView :=
  store view byteOffset (raw_bytes 2 (ToInt16 value mod 65536) littleEndian).

Definition setUint32 (view : DataView) (byteOffset value : Z) (littleEndian : bool)
  : completion DataView :=
  store view byteOffset (raw_bytes 4 (ToUint32 value) littleEndian).

(** ** Platform: blobs and object URLs *)

Record Blob : Type := mkBlob {
  blob_bytes : list Z;
  blob_type : string
}.

(** [new Blob([view], {type})]: a copy of the bytes the view covers. *)
Definition Blob_new (view : DataView) (type : string) : Blob :=
  {| blob_bytes := bytes view; blob_type := type |}.

(** The blob URL store of the page.  A URL is modelled by the position of
    its entry; the text of a real URL is chosen by the browser. *)
Definition URL_createObjectURL (blob : Blob) (urls : list Blob)
  : nat * list Blob :=
  (length urls, urls ++ [blob]).

End Platform.

Import Platform.

(** ** [utils/audio.ts] *)

(** Decodes a base64 string into a [Uint8Array]. *)
Definition decode (base64 : string) : completion (list Z) :=
  let* binaryString := atob base64 in
  let len := String.length binaryString in
  let bytes := Uint8Array_new len in
  for_upto len 0
    (fun i bytes => Normal (Uint8Array_set bytes i (charCodeAt binaryString i)))
    bytes.

Definition writeString (view : DataView) (offset : Z) (string : string)
  : completion DataView :=
  for_upto (String.length string) 0
    (fun i view => setUint8 view (offset + Z.of_nat i) (charCodeAt string i))
    view.

(** Lines 18-40 of [encodeWAV]: everything written through [view]. *)
Definition encodeWAV_body (view : DataView) (samples : list Z)
    (sampleRate numChannels : Z) : completion DataView :=
  let samples_length := Z.of_nat (length samples) in
  (* RIFF header *)
  let* view := writeString view 0 "RIFF" in
  let* view := setUint32 view 4 (36 + samples_length * 2) true in
  let* view := writeString view 8 "WAVE" in
  (* fmt chunk *)
  let* view := writeString view 12 "fmt " in
  let* view := setUint32 view 16 16 true in
  let* view := setUint16 view 20 1 true in
  let* view := setUint16 view 22 numChannels true in
  let* view := setUint32 view 24 sampleRate true in
  let* view := setUint32 view 28 (sampleRate * numChannels * 2) true in
  let* view := setUint16 view 32 (numChannels * 2) true in
  let* view := setUint16 view 34 16 true in
  (* data chunk *)
  let* view := writeString view 36 "data" in
  let* view := setUint32 view 40 (samples_length * 2) true in
  (* the PCM samples *)
  for_upto (length samples) 0
    (fun i view =>
       setInt16 view (44 + Z.of_nat i * 2) (default 0 (samples !! i)) true)
    view.

(** [encodeWAV] on a given backing buffer. *)
Definition encodeWAV_in (buffer : list Z) (samples : list Z)
    (sampleRate numChannels : Z) : completion Blob :=
  let* view := encodeWAV_body (DataView_new buffer) samples sampleRate numChannels in
  Normal (Blob_new view "audio/wav").

(** Encodes raw PCM data (an [Int16Array]) into a WAV [Blob]. *)
Definition encodeWAV (samples : list Z) (sampleRate numChannels : Z)
  : completion Blob :=
  let buffer := ArrayBuffer_new (44 + Z.of_nat (length samples) * 2) in
  encodeWAV_in buffer samples sampleRate numChannels.

(** Creates a WAV [Blob] from base64 encoded raw PCM audio data. *)
Definition createWavBlob (host : ByteOrder) (base64Audio : string)
  : completion Blob :=
  let* rawData := decode base64Audio in
  let* pcmData := Int16Array_new host rawData in
  let sampleRate := 24000 in
  let numChannels := 1 in
  let* wavBlob := encodeWAV pcmData sampleRate numChannels in
  Normal wavBlob.

(** Converts base64 raw audio to a WAV blob URL. *)
Definition createWavUrl (host : ByteOrder) (base64Audio : string)
    (urls : list Blob) : completion (nat * list Blob) :=
  let* wavBlob := createWavBlob host base64Audio in
  let url := URL_createObjectURL wavBlob urls in
  Normal url.

(** ** Reference definitions

    The layout of the specification's header table, written byte by byte
    with division and remainder, independently of the bit operations of
    the [DataView] model. *)

Definition ascii_codes (s : string) : list Z :=
  map code_unit (list_ascii_of_string s).

Definition LE_u16 (x : Z) : list Z := [x mod 256; (x / 256) mod 256].

Definition LE_u32 (x : Z) : list Z :=
  [x mod 256; (x / 256) mod 256; (x / 65536) mod 256; (x / 16777216) mod 256].

(** A signed 16-bit value in two's complement, least significant byte
    first. *)
Definition LE_i16 (x : Z) : list Z := LE_u16 (x mod 65536).

(** The canonical RIFF/WAVE/PCM header for [sampleCount] samples. *)
Definition canonical_header (sampleCount sampleRate numChannels : Z) : list Z :=
  let dataBytes := sampleCount * 2 in
  ascii_codes "RIFF" ++ LE_u32 (36 + dataBytes) ++ ascii_codes "WAVE"
  ++ ascii_codes "fmt " ++ LE_u32 16 ++ LE_u16 1 ++ LE_u16 numChannels
  ++ LE_u32 sampleRate ++ LE_u32 (sampleRate * numChannels * 2)
  ++ LE_u16 (numChannels * 2) ++ LE_u16 16
  ++ ascii_codes "data" ++ LE_u32 dataBytes.

(** Reading a little-endian field back from a byte sequence. *)
Definition u16_at (bs : list Z) (offset : nat) : option Z :=
  match take 2 (drop offset bs) with
  | [b0; b1] => Some (b0 + 256 * b1)
  | _ => None
  end.

Definition u32_at (bs : list Z) (offset : nat) : option Z :=
  match take 4 (drop offset bs) with
  | [b0; b1; b2; b3] => Some (b0 + 256 * b1 + 65536 * b2 + 16777216 * b3)
  | _ => None
  end.

(** The [size] bytes that start at [offset]. *)
Definition field (bs : list Z) (offset size : nat) : list Z :=
  take size (drop offset bs).

Definition is_byte (b : Z) : Prop := 0 <= b < 256.

Definition MAX_SAFE_INTEGER : Z := 9007199254740991.

Definition safe_integer (x : Z) : Prop :=
  - MAX_SAFE_INTEGER <= x <= MAX_SAFE_INTEGER.

(** The arguments for which the product [sampleRate * numChannels * 2] is
    computed without rounding. *)
Definition exact_format (sampleRate numChannels : Z) : Prop :=
  safe_integer sampleRate /\ safe_integer numChannels
  /\ safe_integer (sampleRate * numChannels * 2).

(** The stores each of the header statements makes, in program order: a
    [writeString] stores its characters one by one, a setter stores once. *)
Definition header_statement_stores : list (list (Z * Z)) :=
  [ [(0, 1); (1, 1); (2, 1); (3, 1)];       (* writeString(view, 0, 'RIFF') *)
    [(4, 4)];
    [(8, 1); (9, 1); (10, 1); (11, 1)];     (* writeString(view, 8, 'WAVE') *)
    [(12, 1); (13, 1); (14, 1); (15, 1)];   (* writeString(view, 12, 'fmt ') *)
    [(16, 4)]; [(20, 2)]; [(22, 2)]; [(24, 4)]; [(28, 4)]; [(32, 2)]; [(34, 2)];
    [(36, 1); (37, 1); (38, 1); (39, 1)];   (* writeString(view, 36, 'data') *)
    [(40, 4)] ].

Definition header_stores : list (Z * Z) := List.concat header_statement_stores.

(** The store of the [i]-th sample. *)
Definition sample_store (i : nat) : Z * Z := (44 + Z.of_nat i * 2, 2).

(** The byte offsets a store touches. *)
Definition touched (w : Z * Z) : list Z :=
  map (fun k => fst w + Z.of_nat k) (seq 0 (Z.to_nat (snd w))).

(** A byte sequence with the two bytes of every pair exchanged. *)
Fixpoint swap_pairs (bs : list Z) : list Z :=
  match bs with
  | b0 :: b1 :: rest => b1 :: b0 :: swap_pairs rest
  | _ => bs
  end.

Definition is_int16 (x : Z) : Prop := -32768 <= x <= 32767.

(** ** The caller in [App.tsx]

    The part of the component state that [handleLoadHistory] reads and
    writes.  A setter replaces one state variable; an object URL is the
    position of its blob in the page's URL store, as in
    [URL_createObjectURL]. *)

Module App.

Module HistoryItem.
Record t : Type := mk {
  id : Z;
  title : string;
  script : string;
  audioBase64 : string;
  timestamp : string
}.
End HistoryItem.

Record State : Type := mkState {
  transcript : string;
  recapScript : string;
  title : string;
  audioUrl : option nat;
  history : list HistoryItem.t
}.

Definition setTitle (v : string) (st : State) : State :=
  {| transcript := transcript st; recapScript := recapScript st; title := v;
     audioUrl := audioUrl st; history := history st |}.

Definition setRecapScript (v : string) (st : State) : State :=
  {| transcript := transcript st; recapScript := v; title := title st;
     audioUrl := audioUrl st; history := history st |}.

Definition setAudioUrl (v : option nat) (st : State) : State :=
  {| transcript := transcript st; recapScript := recapScript st;
     title := title st; audioUrl := v; history := history st |}.

(** [handleLoadHistory(item)].  An exception of [createWavUrl] leaves the
    handler; [window.scrollTo] does not touch the state. *)
Definition handleLoadHistory (host : ByteOrder) (item : HistoryItem.t)
    (st : State) (urls : list Blob) : completion (State * list Blob) :=
  let st := setTitle (HistoryItem.title item) st in
  let st := setRecapScript (HistoryItem.script item) st in
  let* registered := createWavUrl host (HistoryItem.audioBase64 item) urls in
  let url := fst registered in
  let st := setAudioUrl (Some url) st in
  Normal (st, snd registered).

End App.

(** ** Arithmetic of the stored bytes *)

Lemma byte_of_div (n k : Z) :
  0 <= k -> byte_of n k = (n / 2 ^ (8 * k)) mod 256.
Proof.
  intros Hk. unfold byte_of.
  change 255 with (Z.ones 8).
  rewrite Z.land_ones by lia.
  rewrite Z.shiftr_div_pow2 by lia.
  reflexivity.
Qed.

Lemma raw_bytes_Uint16 (v : Z) :
  raw_bytes 2 (ToUint16 v) true = LE_u16 v.
Proof.
  unfold raw_bytes, ToUint16, LE_u16. cbn [seq map].
  rewrite !byte_of_div by lia.
  change (2 ^ (8 * Z.of_nat 0)) with 1.
  change (2 ^ (8 * Z.of_nat 1)) with 256.
  f_equal; [|f_equal]; Z.div_mod_to_equations; lia.
Qed.

Lemma raw_bytes_Int16 (v : Z) :
  raw_bytes 2 (ToInt16 v mod 65536) true = LE_i16 v.
Proof.
  assert (E : ToInt16 v mod 65536 = ToUint16 (v mod 65536)).
  { unfold ToInt16, ToUint16.
    destruct (Z.ltb_spec (v mod 65536) 32768); Z.div_mod_to_equations; lia. }
  rewrite E. apply raw_bytes_Uint16.
Qed.

Lemma raw_bytes_Uint32 (v : Z) :
  raw_bytes 4 (ToUint32 v) true = LE_u32 v.
Proof.
  unfold raw_bytes, ToUint32, LE_u32. cbn [seq map].
  rewrite !byte_of_div by lia.
  change (2 ^ (8 * Z.of_nat 0)) with 1.
  change (2 ^ (8 * Z.of_nat 1)) with 256.
  change (2 ^ (8 * Z.of_nat 2)) with 65536.
  change (2 ^ (8 * Z.of_nat 3)) with 16777216.
  repeat (f_equal; [Z.div_mod_to_equations; lia|]).
  f_equal. Z.div_mod_to_equations. lia.
Qed.

Lemma code_unit_byte (c : ascii) : is_byte (code_unit c).
Proof.
  unfold is_byte, code_unit. pose proof (N_ascii_bounded c). lia.
Qed.

Lemma LE_u16_length (x : Z) : length (LE_u16 x) = 2%nat.
Proof. reflexivity. Qed.

Lemma LE_u32_length (x : Z) : length (LE_u32 x) = 4%nat.
Proof. reflexivity. Qed.

Lemma LE_i16_length (x : Z) : length (LE_i16 x) = 2%nat.
Proof. reflexivity. Qed.

(** ** Stores that extend a written prefix

    [encodeWAV] writes its buffer front to back.  The lemmas below follow a
    view whose first bytes [w] have been written and whose remaining bytes
    are still those of the buffer [buf0] it was created on. *)

Lemma write_at_app (pre bs rest : list Z) :
  (length bs <= length rest)%nat ->
  write_at (length pre) bs (pre ++ rest) = pre ++ bs ++ drop (length bs) rest.
Proof.
  revert pre rest. induction bs as [|b bs IH]; intros pre rest Hlen.
  - reflexivity.
  - destruct rest as [|r rest]; [simpl in Hlen; lia|].
    cbn [write_at length drop].
    replace (length pre) with (length pre + 0)%nat at 2 by lia.
    rewrite insert_app_r. cbn [insert list_insert].
    replace (pre ++ b :: rest) with ((pre ++ [b]) ++ rest)
      by (rewrite <- app_assoc; reflexivity).
    replace (S (length pre)) with (length (pre ++ [b]))
      by (rewrite length_app; simpl; lia).
    rewrite IH by (simpl in Hlen; lia).
    rewrite <- app_assoc. reflexivity.
Qed.

Lemma drop_split (w buf0 : list Z) (k : nat) :
  drop (k + length w) buf0 = drop k (drop (length w) buf0).
Proof. rewrite drop_drop. f_equal. lia. Qed.

Lemma store_seq (buf0 w : list Z) (tr : list (Z * Z)) (off : Z) (bs : list Z) :
  off = Z.of_nat (length w) ->
  (length w + length bs <= length buf0)%nat ->
  store (mkDataView (w ++ drop (length w) buf0) tr) off bs =
  Normal (mkDataView ((w ++ bs) ++ drop (length (w ++ bs)) buf0)
                     (tr ++ [(off, Z.of_nat (length bs))])).
Proof.
  intros -> Hfit. unfold store. cbn [bytes stores].
  assert (Hrest : length (drop (length w) buf0) = (length buf0 - length w)%nat)
    by apply length_drop.
  rewrite length_app, Hrest.
  replace ((0 <=? Z.of_nat (length w)) &&
           (Z.of_nat (length w) + Z.of_nat (length bs)
            <=? Z.of_nat (length w + (length buf0 - length w))))
    with true
    by (symmetry; apply andb_true_intro; split;
        [apply Z.leb_le | apply Z.leb_le]; lia).
  rewrite Nat2Z.id, write_at_app by lia.
  rewrite length_app, Nat.add_comm, drop_split, app_assoc.
  reflexivity.
Qed.

Lemma get_ascii_codes (s : string) (i : nat) (c : ascii) :
  String.get i s = Some c -> ascii_codes s !! i = Some (code_unit c).
Proof.
  revert i. induction s as [|a s IH]; intros [|i] H; simpl in H; try discriminate.
  - injection H as ->. reflexivity.
  - apply IH in H. exact H.
Qed.

Lemma ascii_codes_length (s : string) :
  length (ascii_codes s) = String.length s.
Proof.
  unfold ascii_codes. rewrite length_map.
  induction s; simpl; congruence.
Qed.

Lemma get_in_range (s : string) (i : nat) :
  (i < String.length s)%nat -> exists c, String.get i s = Some c.
Proof.
  revert i. induction s as [|a s IH]; intros i H; simpl in H; [lia|].
  destruct i as [|i]; simpl; [eauto|]. apply IH. lia.
Qed.

Lemma drop_ascii_codes (s : string) (i : nat) :
  (i < String.length s)%nat ->
  drop i (ascii_codes s) = ToUint8 (charCodeAt s i) :: drop (S i) (ascii_codes s).
Proof.
  intros H. destruct (get_in_range s i H) as [c Hc].
  unfold charCodeAt. rewrite Hc.
  pose proof (get_ascii_codes s i c Hc) as Hl.
  pose proof (code_unit_byte c) as Hb. unfold is_byte in Hb.
  unfold ToUint8. rewrite Z.mod_small by lia.
  apply drop_S. exact Hl.
Qed.

Lemma writeString_loop (buf0 : list Z) (offset : Z) (s : string) :
  forall (count i : nat) (w : list Z) (tr : list (Z * Z)),
  (i + count = String.length s)%nat ->
  Z.of_nat (length w) = offset + Z.of_nat i ->
  (length w + count <= length buf0)%nat ->
  for_upto count i
    (fun i view => setUint8 view (offset + Z.of_nat i) (charCodeAt s i))
    (mkDataView (w ++ drop (length w) buf0) tr) =
  let w' := w ++ drop i (ascii_codes s) in
  Normal (mkDataView (w' ++ drop (length w') buf0)
            (tr ++ map (fun j => (offset + Z.of_nat j, 1)) (seq i count))).
Proof.
  induction count as [|count IH]; intros i w tr Hi Hw Hfit.
  - cbn [for_upto seq map].
    rewrite (drop_ge (ascii_codes s) i) by (rewrite ascii_codes_length; lia).
    rewrite !app_nil_r. reflexivity.
  - cbn [for_upto]. unfold setUint8.
    rewrite store_seq by (simpl; lia). cbn [bind].
    rewrite IH by (rewrite ?length_app; simpl; lia).
    cbn zeta. rewrite (drop_ascii_codes s i) by lia.
    cbn [seq map length]. rewrite <- !app_assoc. reflexivity.
Qed.

Lemma writeString_seq (buf0 w : list Z) (tr : list (Z * Z)) (offset : Z) (s : string) :
  offset = Z.of_nat (length w) ->
  (length w + String.length s <= length buf0)%nat ->
  writeString (mkDataView (w ++ drop (length w) buf0) tr) offset s =
  Normal (mkDataView ((w ++ ascii_codes s) ++ drop (length (w ++ ascii_codes s)) buf0)
            (tr ++ map (fun j => (offset + Z.of_nat j, 1)) (seq 0 (String.length s)))).
Proof.
  intros Hoff Hfit. unfold writeString.
  rewrite writeString_loop by lia. reflexivity.
Qed.

Lemma flat_map_LE_i16_length (samples : list Z) :
  length (flat_map LE_i16 samples) = (2 * length samples)%nat.
Proof.
  induction samples as [|x samples IH]; [reflexivity|].
  cbn [flat_map]. rewrite length_app, IH, LE_i16_length. simpl. lia.
Qed.

Lemma sample_loop (buf0 samples : list Z) :
  forall (count i : nat) (w : list Z) (tr : list (Z * Z)),
  (i + count = length samples)%nat ->
  Z.of_nat (length w) = 44 + Z.of_nat i * 2 ->
  (length w + 2 * count <= length buf0)%nat ->
  for_upto count i
    (fun i view =>
       setInt16 view (44 + Z.of_nat i * 2) (default 0 (samples !! i)) true)
    (mkDataView (w ++ drop (length w) buf0) tr) =
  let w' := w ++ flat_map LE_i16 (drop i samples) in
  Normal (mkDataView (w' ++ drop (length w') buf0)
            (tr ++ map sample_store (seq i count))).
Proof.
  induction count as [|count IH]; intros i w tr Hi Hw Hfit.
  - cbn [for_upto seq map].
    rewrite (drop_ge samples i) by lia.
    cbn [flat_map]. rewrite !app_nil_r. reflexivity.
  - cbn [for_upto]. unfold setInt16.
    rewrite raw_bytes_Int16.
    rewrite store_seq by (rewrite ?LE_i16_length; lia). cbn [bind].
    rewrite IH by (rewrite ?length_app, ?LE_i16_length; lia).
    destruct (lookup_lt_is_Some_2 samples i) as [x Hx]; [lia|].
    rewrite Hx. cbn [default].
    cbn zeta. rewrite (drop_S samples x i Hx).
    cbn [flat_map seq map]. rewrite LE_i16_length.
    rewrite <- !app_assoc. reflexivity.
Qed.

Ltac fits Hlen :=
  rewrite Hlen;
  match goal with
  | |- (?a + ?b <= _)%nat =>
      let v := eval lazy in a in change a with v
  end;
  rewrite ?LE_u32_length, ?LE_u16_length; cbn [String.length]; lia.

Ltac next_store Hlen :=
  first [ rewrite writeString_seq by first [reflexivity | fits Hlen]
        | rewrite store_seq by first [reflexivity | fits Hlen] ];
  cbn [bind].

(** What [encodeWAV] leaves in a buffer of the right size, whatever the
    buffer held before. *)
Lemma encodeWAV_body_spec (buf0 samples : list Z) (sampleRate numChannels : Z) :
  length buf0 = (44 + 2 * length samples)%nat ->
  encodeWAV_body (DataView_new buf0) samples sampleRate numChannels =
  Normal (mkDataView
            (canonical_header (Z.of_nat (length samples)) sampleRate numChannels
             ++ flat_map LE_i16 samples)
            (header_stores ++ map sample_store (seq 0 (length samples)))).
Proof.
  intros Hlen. unfold encodeWAV_body, DataView_new.
  change (mkDataView buf0 []) with (mkDataView ([] ++ drop (length (@nil Z)) buf0) []).
  unfold setUint32, setUint16.
  rewrite !raw_bytes_Uint32, !raw_bytes_Uint16.
  do 13 next_store Hlen.
  rewrite sample_loop; [| reflexivity | reflexivity | fits Hlen ].
  cbn zeta. rewrite (drop_0 samples).
  rewrite (drop_ge buf0).
  2:{ rewrite length_app, flat_map_LE_i16_length, Hlen.
      match goal with
      | |- (_ <= length ?h + _)%nat =>
          let v := eval lazy in (length h) in change (length h) with v
      end. lia. }
  rewrite app_nil_r. reflexivity.
Qed.

Lemma ArrayBuffer_new_length (samples : list Z) :
  length (ArrayBuffer_new (44 + Z.of_nat (length samples) * 2)) =
  (44 + 2 * length samples)%nat.
Proof. unfold ArrayBuffer_new. rewrite length_replicate. lia. Qed.

Lemma encodeWAV_in_spec (buf0 samples : list Z) (sampleRate numChannels : Z) :
  length buf0 = (44 + 2 * length samples)%nat ->
  encodeWAV_in buf0 samples sampleRate numChannels =
  Normal {| blob_bytes :=
              canonical_header (Z.of_nat (length samples)) sampleRate numChannels
              ++ flat_map LE_i16 samples;
            blob_type := "audio/wav" |}.
Proof.
  intros Hlen. unfold encodeWAV_in.
  rewrite encodeWAV_body_spec by exact Hlen. reflexivity.
Qed.

Lemma encodeWAV_spec (samples : list Z) (sampleRate numChannels : Z) :
  encodeWAV samples sampleRate numChannels =
  Normal {| blob_bytes :=
              canonical_header (Z.of_nat (length samples)) sampleRate numChannels
              ++ flat_map LE_i16 samples;
            blob_type := "audio/wav" |}.
Proof.
  unfold encodeWAV. apply encodeWAV_in_spec, ArrayBuffer_new_length.
Qed.

Lemma canonical_header_length (sampleCount sampleRate numChannels : Z) :
  length (canonical_header sampleCount sampleRate numChannels) = 44%nat.
Proof. reflexivity. Qed.

(** ** The decoder and the sample view *)

Lemma for_upto_invariant {S : Type} (P : S -> Prop)
    (body : nat -> S -> completion S) :
  (forall i s, P s -> exists s', body i s = Normal s' /\ P s') ->
  forall count i s, P s -> exists s', for_upto count i body s = Normal s' /\ P s'.
Proof.
  intros Hbody. induction count as [|count IH]; intros i s Hs.
  - exists s. split; [reflexivity | exact Hs].
  - destruct (Hbody i s Hs) as (s1 & E1 & H1).
    destruct (IH (Datatypes.S i) s1 H1) as (s2 & E2 & H2).
    exists s2. split; [|exact H2].
    cbn [for_upto]. rewrite E1. exact E2.
Qed.

Lemma ToUint8_byte (v : Z) : is_byte (ToUint8 v).
Proof. unfold is_byte, ToUint8. apply Z.mod_pos_bound. lia. Qed.

(** Whatever [decode] returns is a sequence of bytes, one per character of
    the binary string. *)
Lemma decode_bytes (base64 : string) (rawData : list Z) :
  decode base64 = Normal rawData ->
  Forall is_byte rawData /\
  exists binaryString,
    atob base64 = Normal binaryString /\
    length rawData = String.length binaryString.
Proof.
  unfold decode. destruct (atob base64) as [s|e]; [|discriminate].
  cbn [bind]. intros H.
  destruct (for_upto_invariant
              (fun bs => Forall is_byte bs /\ length bs = String.length s)
              (fun i bs => Normal (Uint8Array_set bs i (charCodeAt s i))))
    with (count := String.length s) (i := 0%nat)
         (s := Uint8Array_new (String.length s))
    as (r & Er & Hr1 & Hr2).
  - intros i bs [Hb Hl]. eexists. split; [reflexivity|]. split.
    + unfold Uint8Array_set. apply Forall_insert; [exact Hb | apply ToUint8_byte].
    + unfold Uint8Array_set. rewrite length_insert. exact Hl.
  - unfold Uint8Array_new. split.
    + apply Forall_replicate. unfold is_byte. lia.
    + apply length_replicate.
  - rewrite Er in H. injection H as <-. split; [exact Hr1|].
    exists s. split; [reflexivity | exact Hr2].
Qed.

Lemma Even_mod (n : nat) : Nat.Even n <-> Z.of_nat n mod 2 = 0.
Proof.
  split.
  - intros [m ->]. rewrite Nat2Z.inj_mul, Z.mul_comm. apply Z_mod_mult.
  - intros H. exists (Z.to_nat (Z.of_nat n / 2)).
    apply Nat2Z.inj. rewrite Nat2Z.inj_mul, Z2Nat.id.
    + change (Z.of_nat 2) with 2. Z.div_mod_to_equations. lia.
    + Z.div_mod_to_equations. lia.
Qed.

Lemma Odd_mod (n : nat) : Nat.Odd n <-> Z.of_nat n mod 2 = 1.
Proof.
  split.
  - intros [m ->]. rewrite Nat2Z.inj_add, Nat2Z.inj_mul.
    change (Z.of_nat 2) with 2. change (Z.of_nat 1) with 1.
    Z.div_mod_to_equations. lia.
  - intros H. exists (Z.to_nat (Z.of_nat n / 2)).
    apply Nat2Z.inj. rewrite Nat2Z.inj_add, Nat2Z.inj_mul, Z2Nat.id.
    + change (Z.of_nat 2) with 2. change (Z.of_nat 1) with 1.
      Z.div_mod_to_equations. lia.
    + Z.div_mod_to_equations. lia.
Qed.

Lemma Int16Array_new_even (host : ByteOrder) (buffer : list Z) :
  Nat.Even (length buffer) ->
  Int16Array_new host buffer = Normal (int16_elements host buffer).
Proof.
  intros H. apply Even_mod in H. unfold Int16Array_new. rewrite H. reflexivity.
Qed.

Lemma Int16Array_new_odd (host : ByteOrder) (buffer : list Z) :
  Nat.Odd (length buffer) ->
  Int16Array_new host buffer = Throw RangeError.
Proof.
  intros H. apply Odd_mod in H. unfold Int16Array_new. rewrite H. reflexivity.
Qed.

(** Induction on a list two elements at a time. *)
Lemma pair_induction {A : Type} (P : list A -> Prop) :
  P [] -> (forall a, P [a]) ->
  (forall a b l, P l -> P (a :: b :: l)) ->
  forall l, P l.
Proof.
  intros H0 H1 H2.
  assert (H : forall l, P l /\ forall a, P (a :: l)).
  { induction l as [|b l [IHa IHb]]; split; auto. }
  intros l. apply H.
Qed.

Lemma int16_elements_length (host : ByteOrder) (buffer : list Z) :
  length (int16_elements host buffer) = (length buffer / 2)%nat.
Proof.
  induction buffer as [| a | a b l IH] using pair_induction; try reflexivity.
  cbn [int16_elements length]. rewrite IH.
  change (S (S (length l))) with (1 * 2 + length l)%nat.
  rewrite Nat.add_comm, Nat.div_add by lia. lia.
Qed.

Lemma int16_elements_lookup (host : ByteOrder) (buffer : list Z) (i : nat) (b0 b1 : Z) :
  buffer !! (2 * i)%nat = Some b0 ->
  buffer !! (2 * i + 1)%nat = Some b1 ->
  int16_elements host buffer !! i = Some (int16_of_bytes host b0 b1).
Proof.
  revert buffer. induction i as [|i IH]; intros [|a [|b l]] H0 H1;
    try discriminate.
  - cbn in H0, H1. injection H0 as ->. injection H1 as ->. reflexivity.
  - replace (2 * S i)%nat with (S (S (2 * i))) in H0 by lia.
    replace (2 * S i + 1)%nat with (S (S (2 * i + 1))) in H1 by lia.
    cbn [int16_elements]. apply (IH l); assumption.
Qed.

Lemma int16_of_bytes_range (host : ByteOrder) (b0 b1 : Z) :
  -32768 <= int16_of_bytes host b0 b1 <= 32767.
Proof.
  unfold int16_of_bytes, ToInt16. destruct host;
    match goal with |- context [?u <? 32768] => destruct (Z.ltb_spec u 32768) end;
    Z.div_mod_to_equations; lia.
Qed.

Lemma lor_shiftl_bytes (lo hi : Z) :
  is_byte lo -> Z.lor (Z.shiftl hi 8) lo = lo + 256 * hi.
Proof.
  intros Hlo. unfold is_byte in Hlo.
  assert (Hdisj : Z.land (Z.shiftl hi 8) lo = 0).
  { replace lo with (Z.land lo (Z.ones 8))
      by (rewrite Z.land_ones by lia; apply Z.mod_small; simpl; lia).
    rewrite (Z.land_comm lo), Z.land_assoc, Z.land_ones by lia.
    rewrite Z.shiftl_mul_pow2 by lia.
    rewrite Z_mod_mult. apply Z.land_0_l. }
  rewrite <- Z.lxor_lor by exact Hdisj.
  rewrite <- Z.add_nocarry_lxor by exact Hdisj.
  rewrite Z.shiftl_mul_pow2 by lia. change (2 ^ 8) with 256. lia.
Qed.

(** On a little-endian host a sample is the two's-complement reading of
    [(hi << 8) | lo]. *)
Lemma int16_of_bytes_le (lo hi : Z) :
  is_byte lo -> is_byte hi ->
  int16_of_bytes LittleEndian lo hi mod 65536 = Z.lor (Z.shiftl hi 8) lo.
Proof.
  intros Hlo Hhi. rewrite lor_shiftl_bytes by exact Hlo.
  unfold is_byte in *. unfold int16_of_bytes, ToInt16.
  destruct (Z.ltb_spec ((lo + 256 * hi) mod 65536) 32768);
    Z.div_mod_to_equations; lia.
Qed.

Lemma LE_i16_int16_of_bytes (lo hi : Z) :
  is_byte lo -> is_byte hi ->
  LE_i16 (int16_of_bytes LittleEndian lo hi) = [lo; hi].
Proof.
  intros Hlo Hhi. unfold is_byte in *.
  unfold LE_i16, LE_u16, int16_of_bytes, ToInt16.
  destruct (Z.ltb_spec ((lo + 256 * hi) mod 65536) 32768);
    (f_equal; [|f_equal]); Z.div_mod_to_equations; lia.
Qed.

(** Reading a byte sequence as samples and writing the samples back gives
    the same bytes. *)
Lemma samples_pass_through (rawData : list Z) :
  Forall is_byte rawData -> Nat.Even (length rawData) ->
  flat_map LE_i16 (int16_elements LittleEndian rawData) = rawData.
Proof.
  induction rawData as [| a | a b l IH] using pair_induction; intros Hb He.
  - reflexivity.
  - destruct He as [m Hm]. simpl in Hm. lia.
  - apply Forall_cons in Hb as [Ha Hb]. apply Forall_cons in Hb as [Hb Hl].
    cbn [int16_elements flat_map].
    rewrite LE_i16_int16_of_bytes by assumption.
    rewrite IH; [reflexivity | exact Hl |].
    destruct He as [m Hm]. exists (m - 1)%nat. simpl in Hm. lia.
Qed.

(** [createWavBlob] in one equation. *)
Lemma createWavBlob_run (host : ByteOrder) (base64Audio : string) :
  createWavBlob host base64Audio =
  match decode base64Audio with
  | Throw e => Throw e
  | Normal rawData =>
      if Z.of_nat (length rawData) mod 2 =? 0 then
        let pcmData := int16_elements host rawData in
        Normal {| blob_bytes :=
                    canonical_header (Z.of_nat (length pcmData)) 24000 1
                    ++ flat_map LE_i16 pcmData;
                  blob_type := "audio/wav" |}
      else Throw RangeError
  end.
Proof.
  unfold createWavBlob. destruct (decode base64Audio) as [rawData|e];
    [|reflexivity].
  cbn [bind]. unfold Int16Array_new.
  destruct (Z.of_nat (length rawData) mod 2 =? 0); [|reflexivity].
  cbn [bind]. rewrite encodeWAV_spec. reflexivity.
Qed.

Lemma LE_u32_value (x : Z) (rest : list Z) :
  u32_at (LE_u32 x ++ rest) 0 = Some (x mod 4294967296).
Proof.
  unfold u32_at, LE_u32. cbn [app drop take]. f_equal.
  Z.div_mod_to_equations. lia.
Qed.

Lemma LE_u16_value (x : Z) (rest : list Z) :
  u16_at (LE_u16 x ++ rest) 0 = Some (x mod 65536).
Proof.
  unfold u16_at, LE_u16. cbn [app drop take]. f_equal.
  Z.div_mod_to_equations. lia.
Qed.

Lemma u32_at_drop (bs : list Z) (offset : nat) :
  u32_at bs offset = u32_at (drop offset bs) 0.
Proof. reflexivity. Qed.

Lemma u16_at_drop (bs : list Z) (offset : nat) :
  u16_at bs offset = u16_at (drop offset bs) 0.
Proof. reflexivity. Qed.

(** The two size fields of a header, read back as numbers. *)
Lemma header_size_fields (sampleCount sampleRate numChannels : Z) (data : list Z) :
  let b := canonical_header sampleCount sampleRate numChannels ++ data in
  u32_at b 4 = Some ((36 + sampleCount * 2) mod 4294967296) /\
  u32_at b 40 = Some ((sampleCount * 2) mod 4294967296).
Proof.
  cbn zeta. split.
  - rewrite u32_at_drop.
    change (drop 4 (canonical_header sampleCount sampleRate numChannels ++ data))
      with (LE_u32 (36 + sampleCount * 2)
            ++ drop 8 (canonical_header sampleCount sampleRate numChannels ++ data)).
    apply LE_u32_value.
  - rewrite u32_at_drop.
    change (drop 40 (canonical_header sampleCount sampleRate numChannels ++ data))
      with (LE_u32 (sampleCount * 2) ++ data).
    apply LE_u32_value.
Qed.

(** The format fields of a header, read back as numbers. *)
Lemma header_format_fields (sampleCount sampleRate numChannels : Z) (data : list Z) :
  let b := canonical_header sampleCount sampleRate numChannels ++ data in
  u16_at b 22 = Some (numChannels mod 65536) /\
  u32_at b 24 = Some (sampleRate mod 4294967296) /\
  u32_at b 28 = Some ((sampleRate * numChannels * 2) mod 4294967296) /\
  u16_at b 32 = Some ((numChannels * 2) mod 65536).
Proof.
  cbn zeta. repeat split.
  - rewrite u16_at_drop.
    change (drop 22 (canonical_header sampleCount sampleRate numChannels ++ data))
      with (LE_u16 numChannels
            ++ drop 24 (canonical_header sampleCount sampleRate numChannels ++ data)).
    apply LE_u16_value.
  - rewrite u32_at_drop.
    change (drop 24 (canonical_header sampleCount sampleRate numChannels ++ data))
      with (LE_u32 sampleRate
            ++ drop 28 (canonical_header sampleCount sampleRate numChannels ++ data)).
    apply LE_u32_value.
  - rewrite u32_at_drop.
    change (drop 28 (canonical_header sampleCount sampleRate numChannels ++ data))
      with (LE_u32 (sampleRate * numChannels * 2)
            ++ drop 32 (canonical_header sampleCount sampleRate numChannels ++ data)).
    apply LE_u32_value.
  - rewrite u16_at_drop.
    change (drop 32 (canonical_header sampleCount sampleRate numChannels ++ data))
      with (LE_u16 (numChannels * 2)
            ++ drop 34 (canonical_header sampleCount sampleRate numChannels ++ data)).
    apply LE_u16_value.
Qed.

Lemma take_header (sampleCount sampleRate numChannels : Z) (data : list Z) :
  take 44 (canonical_header sampleCount sampleRate numChannels ++ data) =
  canonical_header sampleCount sampleRate numChannels.
Proof. reflexivity. Qed.

Lemma drop_header (sampleCount sampleRate numChannels : Z) (data : list Z) :
  drop 44 (canonical_header sampleCount sampleRate numChannels ++ data) = data.
Proof. reflexivity. Qed.

Lemma exact_format_24000_1 : exact_format 24000 1.
Proof. unfold exact_format, safe_integer, MAX_SAFE_INTEGER. lia. Defined.

(** ** The header writer *)

(** C1.  For every sample array, and every sample rate and channel count in
    the exact range of the number model, the first 44 bytes of the buffer
    [encodeWAV] produces are the RIFF/WAVE/PCM header of the table, field by
    field, with [dataBytes] twice the number of samples.  Encoding an empty
    sample array at 24000 Hz, one channel, gives exactly 44 bytes with
    ChunkSize 36 and Subchunk2Size 0. *)
Theorem encodeWAV_canonical_header
    (samples : list Z) (sampleRate numChannels : Z) :
  exact_format sampleRate numChannels ->
  (exists blob,
     encodeWAV samples sampleRate numChannels = Normal blob /\
     let b := blob_bytes blob in
     let dataBytes := Z.of_nat (length samples) * 2 in
     field b 0 4 = ascii_codes "RIFF" /\
     field b 4 4 = LE_u32 (36 + dataBytes) /\
     field b 8 4 = ascii_codes "WAVE" /\
     field b 12 4 = ascii_codes "fmt " /\
     field b 16 4 = LE_u32 16 /\
     field b 20 2 = LE_u16 1 /\
     field b 22 2 = LE_u16 numChannels /\
     field b 24 4 = LE_u32 sampleRate /\
     field b 28 4 = LE_u32 (sampleRate * numChannels * 2) /\
     field b 32 2 = LE_u16 (numChannels * 2) /\
     field b 34 2 = LE_u16 16 /\
     field b 36 4 = ascii_codes "data" /\
     field b 40 4 = LE_u32 dataBytes /\
     take 44 b =
       canonical_header (Z.of_nat (length samples)) sampleRate numChannels) /\
  (exists blob0,
     encodeWAV [] 24000 1 = Normal blob0 /\
     decode "" = Normal [] /\
     createWavBlob LittleEndian "" = Normal blob0 /\
     blob_bytes blob0 =
       [82; 73; 70; 70; 36; 0; 0; 0; 87; 65; 86; 69; 102; 109; 116; 32;
        16; 0; 0; 0; 1; 0; 1; 0; 192; 93; 0; 0; 128; 187; 0; 0; 2; 0;
        16; 0; 100; 97; 116; 97; 0; 0; 0; 0] /\
     length (blob_bytes blob0) = 44%nat /\
     u32_at (blob_bytes blob0) 4 = Some 36 /\
     u32_at (blob_bytes blob0) 40 = Some 0).
Proof.
  intros _. split.
  - eexists. split; [apply encodeWAV_spec|].
    cbn [blob_bytes]. cbn zeta. repeat split.
  - eexists. split; [vm_compute; reflexivity|].
    split; [vm_compute; reflexivity|].
    split; [vm_compute; reflexivity|].
    cbn [blob_bytes]. repeat split.
Qed.

Lemma encodeWAV_canonical_header_witness :
  exact_format 24000 1 /\
  exists blob,
    encodeWAV [1; -2] 24000 1 = Normal blob /\
    field (blob_bytes blob) 24 4 = LE_u32 24000 /\
    field (blob_bytes blob) 40 4 = LE_u32 4.
Proof.
  split; [exact exact_format_24000_1|].
  destruct (encodeWAV_canonical_header [1; -2] 24000 1 exact_format_24000_1)
    as [(blob & E & F) _].
  exists blob. split; [exact E|].
  cbn zeta in F. split; [apply F | apply F].
Defined.

(** ** The pipeline on a known vector *)

(** C2.  The base64 text [AQACAAMABAA=] decodes to the bytes
    01 00 02 00 03 00 04 00, which a little-endian host reads as the samples
    1, 2, 3, 4; the WAV blob built from it has 52 bytes, Subchunk2Size 8, and
    ends with the eight input bytes. *)
Theorem known_vector_end_to_end :
  decode "AQACAAMABAA=" = Normal [1; 0; 2; 0; 3; 0; 4; 0] /\
  Int16Array_new LittleEndian [1; 0; 2; 0; 3; 0; 4; 0] = Normal [1; 2; 3; 4] /\
  exists blob,
    createWavBlob LittleEndian "AQACAAMABAA=" = Normal blob /\
    encodeWAV [1; 2; 3; 4] 24000 1 = Normal blob /\
    length (blob_bytes blob) = 52%nat /\
    u32_at (blob_bytes blob) 40 = Some 8 /\
    drop 44 (blob_bytes blob) = [1; 0; 2; 0; 3; 0; 4; 0].
Proof.
  split; [vm_compute; reflexivity|].
  split; [vm_compute; reflexivity|].
  eexists. split; [vm_compute; reflexivity|].
  repeat split.
Qed.

(** ** Output size *)

(** C3.  When the decoded input has an even number of bytes, the blob has
    44 + 2 * sampleCount bytes, where sampleCount is half the number of
    input bytes: a 44-byte header followed by two bytes per sample. *)
Theorem output_length
    (host : ByteOrder) (base64Audio : string) (rawData : list Z) :
  decode base64Audio = Normal rawData ->
  Nat.Even (length rawData) ->
  exists pcmData blob,
    Int16Array_new host rawData = Normal pcmData /\
    length pcmData = (length rawData / 2)%nat /\
    createWavBlob host base64Audio = Normal blob /\
    length (blob_bytes blob) = (44 + 2 * (length rawData / 2))%nat /\
    length (take 44 (blob_bytes blob)) = 44%nat /\
    length (drop 44 (blob_bytes blob)) = (2 * length pcmData)%nat /\
    blob_bytes blob =
      canonical_header (Z.of_nat (length pcmData)) 24000 1
      ++ flat_map LE_i16 pcmData.
Proof.
  intros Hdec Heven.
  exists (int16_elements host rawData). eexists.
  split; [apply Int16Array_new_even, Heven|].
  split; [apply int16_elements_length|].
  split.
  { rewrite createWavBlob_run, Hdec.
    apply Even_mod in Heven. rewrite Heven. reflexivity. }
  cbn [blob_bytes]. rewrite take_header, drop_header.
  rewrite length_app, canonical_header_length, flat_map_LE_i16_length.
  rewrite int16_elements_length. repeat split.
Qed.

Lemma output_length_witness :
  exists pcmData blob,
    Int16Array_new LittleEndian [1; 0; 2; 0; 3; 0; 4; 0] = Normal pcmData /\
    createWavBlob LittleEndian "AQACAAMABAA=" = Normal blob /\
    length (blob_bytes blob) = 52%nat.
Proof.
  assert (Hdec : decode "AQACAAMABAA=" = Normal [1; 0; 2; 0; 3; 0; 4; 0])
    by (vm_compute; reflexivity).
  assert (Heven : Nat.Even (length [1; 0; 2; 0; 3; 0; 4; 0]))
    by (exists 4%nat; reflexivity).
  destruct (output_length LittleEndian "AQACAAMABAA=" _ Hdec Heven)
    as (pcmData & blob & H1 & _ & H2 & H3 & _).
  exists pcmData, blob. repeat split; assumption.
Defined.

(** ** Odd byte counts *)

(** C4.  A decoded buffer with an odd number of bytes (three, for one) is
    rejected by the sample view: the [Int16Array] constructor throws, so
    [createWavBlob] and [createWavUrl] throw the same exception and no blob
    is produced from a shortened or padded buffer. *)
Theorem odd_length_rejected
    (host : ByteOrder) (base64Audio : string) (rawData : list Z) :
  decode base64Audio = Normal rawData ->
  Nat.Odd (length rawData) ->
  Int16Array_new host rawData = Throw RangeError /\
  createWavBlob host base64Audio = Throw RangeError /\
  (forall blob, createWavBlob host base64Audio <> Normal blob) /\
  (forall urls, createWavUrl host base64Audio urls = Throw RangeError) /\
  (forall b0 b1 b2, Int16Array_new host [b0; b1; b2] = Throw RangeError).
Proof.
  intros Hdec Hodd.
  assert (Hblob : createWavBlob host base64Audio = Throw RangeError).
  { rewrite createWavBlob_run, Hdec.
    apply Odd_mod in Hodd. rewrite Hodd. reflexivity. }
  split; [apply Int16Array_new_odd, Hodd|].
  split; [exact Hblob|].
  split; [intros blob; rewrite Hblob; discriminate|].
  split; [intros urls; unfold createWavUrl; rewrite Hblob; reflexivity|].
  intros b0 b1 b2. reflexivity.
Qed.

Lemma odd_length_rejected_witness :
  decode "AQID" = Normal [1; 2; 3] /\
  createWavBlob LittleEndian "AQID" = Throw RangeError.
Proof.
  assert (Hdec : decode "AQID" = Normal [1; 2; 3]) by (vm_compute; reflexivity).
  assert (Hodd : Nat.Odd (length [1; 2; 3])) by (exists 1%nat; reflexivity).
  split; [exact Hdec|].
  apply (odd_length_rejected LittleEndian "AQID" _ Hdec Hodd).
Defined.

(** ** Format arguments are not validated *)

(** Counterexample to C5: with sample rate 0 and channel count 0 the writer
    returns a 44-byte header; it does not throw. *)
Lemma zero_format_accepted :
  encodeWAV [] 0 0 =
    Normal {| blob_bytes :=
                [82; 73; 70; 70; 36; 0; 0; 0; 87; 65; 86; 69; 102; 109; 116; 32;
                 16; 0; 0; 0; 1; 0; 0; 0; 0; 0; 0; 0; 0; 0; 0; 0; 0; 0;
                 16; 0; 100; 97; 116; 97; 0; 0; 0; 0];
              blob_type := "audio/wav" |} /\
  ~ (exists e, encodeWAV [] 0 0 = Throw e).
Proof.
  split; [vm_compute; reflexivity|].
  intros [e He]. vm_compute in He. discriminate.
Qed.

(** C5, amended.  [encodeWAV] does not validate its format arguments: for a
    non-positive sample rate or channel count (0 included) it returns the
    buffer of 44 + 2n bytes as for any other value, with NumChannels and
    BlockAlign written modulo 2^16 and SampleRate and ByteRate modulo
    2^32. *)
Theorem nonpositive_format_accepted
    (samples : list Z) (sampleRate numChannels : Z) :
  exact_format sampleRate numChannels ->
  sampleRate <= 0 \/ numChannels <= 0 ->
  exists blob,
    encodeWAV samples sampleRate numChannels = Normal blob /\
    let b := blob_bytes blob in
    length b = (44 + 2 * length samples)%nat /\
    u16_at b 22 = Some (numChannels mod 65536) /\
    u32_at b 24 = Some (sampleRate mod 4294967296) /\
    u32_at b 28 = Some ((sampleRate * numChannels * 2) mod 4294967296) /\
    u16_at b 32 = Some ((numChannels * 2) mod 65536).
Proof.
  intros _ _. eexists. split; [apply encodeWAV_spec|].
  cbn [blob_bytes]. cbn zeta. split.
  - rewrite length_app, canonical_header_length, flat_map_LE_i16_length.
    reflexivity.
  - apply header_format_fields.
Qed.

Lemma nonpositive_format_accepted_witness :
  exists blob,
    encodeWAV [7] 0 (-1) = Normal blob /\
    u16_at (blob_bytes blob) 22 = Some 65535 /\
    u32_at (blob_bytes blob) 24 = Some 0.
Proof.
  assert (Hexact : exact_format 0 (-1))
    by (unfold exact_format, safe_integer, MAX_SAFE_INTEGER; lia).
  assert (Hneg : 0 <= 0 \/ -1 <= 0) by (left; lia).
  destruct (nonpositive_format_accepted [7] 0 (-1) Hexact Hneg)
    as (blob & E & _ & H22 & H24 & _).
  exists blob. split; [exact E|]. split; [exact H22 | exact H24].
Defined.

(** ** Sample data *)

Lemma flat_map_LE_i16_field (samples : list Z) (i : nat) (x : Z) (pre : list Z) :
  samples !! i = Some x ->
  field (pre ++ flat_map LE_i16 samples) (length pre + 2 * i) 2 = LE_i16 x.
Proof.
  unfold field. intros Hx.
  rewrite drop_app_add. clear pre.
  revert samples Hx. induction i as [|i IH]; intros [|y samples] Hx;
    try discriminate.
  - injection Hx as ->. reflexivity.
  - replace (2 * S i)%nat with (S (S (2 * i))) by lia.
    cbn [flat_map]. apply (IH samples). exact Hx.
Qed.

(** C6.  On a little-endian host every pair of consecutive bytes (lo, hi)
    of an even-length decoded buffer becomes the sample that is the signed
    16-bit two's-complement reading of [(hi << 8) | lo] (the bytes 0x34 0x12
    give 4660), and the blob holds, after its 44-byte header, the samples in
    their order, two bytes each, least significant byte first: the very
    bytes of the decoded buffer. *)
Theorem samples_little_endian_pass_through
    (base64Audio : string) (rawData : list Z) :
  decode base64Audio = Normal rawData ->
  Nat.Even (length rawData) ->
  (exists pcmData blob,
     Int16Array_new LittleEndian rawData = Normal pcmData /\
     (forall i lo hi,
        rawData !! (2 * i)%nat = Some lo ->
        rawData !! (2 * i + 1)%nat = Some hi ->
        exists sample,
          pcmData !! i = Some sample /\
          -32768 <= sample <= 32767 /\
          sample mod 65536 = Z.lor (Z.shiftl hi 8) lo) /\
     createWavBlob LittleEndian base64Audio = Normal blob /\
     (forall i sample,
        pcmData !! i = Some sample ->
        field (blob_bytes blob) (44 + 2 * i) 2 = LE_i16 sample) /\
     drop 44 (blob_bytes blob) = flat_map LE_i16 pcmData /\
     drop 44 (blob_bytes blob) = rawData) /\
  Int16Array_new LittleEndian [52; 18] = Normal [4660].
Proof.
  intros Hdec Heven. split; [|reflexivity].
  destruct (decode_bytes _ _ Hdec) as [Hbytes _].
  exists (int16_elements LittleEndian rawData). eexists.
  split; [apply Int16Array_new_even, Heven|].
  split.
  { intros i lo hi Hlo Hhi. eexists.
    split; [apply (int16_elements_lookup _ _ _ _ _ Hlo Hhi)|].
    split; [apply int16_of_bytes_range|].
    apply int16_of_bytes_le.
    - apply (Forall_lookup_1 _ _ _ _ Hbytes Hlo).
    - apply (Forall_lookup_1 _ _ _ _ Hbytes Hhi). }
  split.
  { rewrite createWavBlob_run, Hdec.
    pose proof Heven as Hmod. apply Even_mod in Hmod. rewrite Hmod.
    reflexivity. }
  cbn [blob_bytes]. split.
  { intros i sample Hs.
    rewrite <- (flat_map_LE_i16_field _ i sample
                  (canonical_header
                     (Z.of_nat (length (int16_elements LittleEndian rawData)))
                     24000 1) Hs).
    reflexivity. }
  rewrite drop_header. split; [reflexivity|].
  apply samples_pass_through; assumption.
Qed.

Lemma samples_little_endian_pass_through_witness :
  exists blob,
    createWavBlob LittleEndian "NBL+/w==" = Normal blob /\
    drop 44 (blob_bytes blob) = [52; 18; 254; 255].
Proof.
  assert (Hdec : decode "NBL+/w==" = Normal [52; 18; 254; 255])
    by (vm_compute; reflexivity).
  assert (Heven : Nat.Even (length [52; 18; 254; 255]))
    by (exists 2%nat; reflexivity).
  destruct (samples_little_endian_pass_through "NBL+/w==" _ Hdec Heven)
    as [(pcmData & blob & _ & _ & E & _ & _ & Hdata) _].
  exists blob. split; [exact E | exact Hdata].
Defined.

(** ** Size fields are not checked for overflow *)

(** Counterexample to C7: for 2^31 samples, whose data take 2^32 bytes, the
    writer returns normally with ChunkSize 36 and Subchunk2Size 0, the
    sizes wrapped around modulo 2^32. *)
Lemma size_fields_wrap_around :
  Z.of_nat (length (replicate (Z.to_nat 2147483648) 0)) * 2 = 4294967296 /\
  exists blob,
    encodeWAV (replicate (Z.to_nat 2147483648) 0) 24000 1 = Normal blob /\
    u32_at (blob_bytes blob) 4 = Some 36 /\
    u32_at (blob_bytes blob) 40 = Some 0.
Proof.
  assert (Hlen : Z.of_nat (length (replicate (Z.to_nat 2147483648) 0))
                 = 2147483648).
  { rewrite length_replicate. apply Z2Nat.id. discriminate. }
  split; [rewrite Hlen; reflexivity|].
  eexists. split; [apply encodeWAV_spec|].
  cbn [blob_bytes]. rewrite Hlen.
  generalize (flat_map LE_i16 (replicate (Z.to_nat 2147483648) 0)).
  intros data. apply (header_size_fields 2147483648 24000 1 data).
Qed.

(** C7, amended.  [encodeWAV] makes no overflow check: for every sample
    array it returns normally, with ChunkSize holding 36 + dataBytes modulo
    2^32 and Subchunk2Size holding dataBytes modulo 2^32, where dataBytes
    is twice the number of samples. *)
Theorem size_fields_modulo (samples : list Z) (sampleRate numChannels : Z) :
  exists blob,
    encodeWAV samples sampleRate numChannels = Normal blob /\
    u32_at (blob_bytes blob) 4 =
      Some ((36 + Z.of_nat (length samples) * 2) mod 4294967296) /\
    u32_at (blob_bytes blob) 40 =
      Some ((Z.of_nat (length samples) * 2) mod 4294967296).
Proof.
  eexists. split; [apply encodeWAV_spec|].
  cbn [blob_bytes].
  generalize (flat_map LE_i16 samples). intros data.
  apply header_size_fields.
Qed.

(** ** The fixed format of the facade *)

(** C8.  Whatever base64 text it is given, a blob produced by
    [createWavBlob], and so the blob [createWavUrl] registers, has
    SampleRate 24000 and NumChannels 1 in its header. *)
Theorem facade_fixed_format
    (host : ByteOrder) (base64Audio : string) (blob : Blob) :
  createWavBlob host base64Audio = Normal blob ->
  field (blob_bytes blob) 24 4 = [192; 93; 0; 0] /\
  u32_at (blob_bytes blob) 24 = Some 24000 /\
  field (blob_bytes blob) 22 2 = [1; 0] /\
  u16_at (blob_bytes blob) 22 = Some 1 /\
  (forall urls url urls',
     createWavUrl host base64Audio urls = Normal (url, urls') ->
     urls' !! url = Some blob).
Proof.
  intros Hblob. pose proof Hblob as Hrun.
  rewrite createWavBlob_run in Hrun.
  destruct (decode base64Audio) as [rawData|e]; [|discriminate].
  destruct (Z.of_nat (length rawData) mod 2 =? 0); [|discriminate].
  injection Hrun as <-. cbn [blob_bytes].
  repeat split.
  intros urls url urls' Hurl. unfold createWavUrl in Hurl.
  rewrite Hblob in Hurl. cbn [bind] in Hurl. unfold URL_createObjectURL in Hurl.
  injection Hurl as <- <-.
  rewrite lookup_app_r by lia. rewrite Nat.sub_diag. reflexivity.
Qed.

Lemma facade_fixed_format_witness :
  exists blob,
    createWavBlob BigEndian "NBL+/w==" = Normal blob /\
    u32_at (blob_bytes blob) 24 = Some 24000 /\
    u16_at (blob_bytes blob) 22 = Some 1.
Proof.
  destruct (createWavBlob BigEndian "NBL+/w==") as [blob|e] eqn:E;
    [|vm_compute in E; discriminate].
  exists blob. split; [reflexivity|].
  destruct (facade_fixed_format BigEndian "NBL+/w==" blob E)
    as (_ & H24 & _ & H22 & _).
  split; [exact H24 | exact H22].
Defined.

(** ** Determinism *)

(** C9.  The output is a function of the encoder's inputs alone.  Two runs
    of [encodeWAV] on the same samples, sample rate and channel count give
    the same blob whatever their freshly allocated buffers held, since every
    byte of the buffer is written; and two runs of the facade on the same
    base64 text register byte-identical blobs whatever the state of the
    URL store. *)
Theorem encoder_deterministic
    (host : ByteOrder) (base64Audio : string)
    (samples : list Z) (sampleRate numChannels : Z)
    (buffer1 buffer2 : list Z) :
  length buffer1 = (44 + 2 * length samples)%nat ->
  length buffer2 = (44 + 2 * length samples)%nat ->
  encodeWAV_in buffer1 samples sampleRate numChannels =
    encodeWAV_in buffer2 samples sampleRate numChannels /\
  encodeWAV_in buffer1 samples sampleRate numChannels =
    encodeWAV samples sampleRate numChannels /\
  (exists blob, encodeWAV samples sampleRate numChannels = Normal blob) /\
  (forall urls1 urls2 url1 url2 urls1' urls2',
     createWavUrl host base64Audio urls1 = Normal (url1, urls1') ->
     createWavUrl host base64Audio urls2 = Normal (url2, urls2') ->
     exists blob,
       createWavBlob host base64Audio = Normal blob /\
       urls1' !! url1 = Some blob /\ urls2' !! url2 = Some blob).
Proof.
  intros H1 H2.
  split; [rewrite !encodeWAV_in_spec by assumption; reflexivity|].
  split; [rewrite encodeWAV_in_spec, encodeWAV_spec by assumption; reflexivity|].
  split; [eexists; apply encodeWAV_spec|].
  intros urls1 urls2 url1 url2 urls1' urls2' E1 E2.
  unfold createWavUrl in E1, E2.
  destruct (createWavBlob host base64Audio) as [blob|e]; [|discriminate].
  cbn [bind] in E1, E2. unfold URL_createObjectURL in E1, E2.
  injection E1 as <- <-. injection E2 as <- <-.
  exists blob. split; [reflexivity|].
  split; rewrite lookup_app_r by lia; rewrite Nat.sub_diag; reflexivity.
Qed.

Lemma encoder_deterministic_witness :
  encodeWAV_in (replicate 48 255) [1; -2] 24000 1 =
  encodeWAV_in (replicate 48 0) [1; -2] 24000 1.
Proof.
  assert (H1 : length (replicate 48 255) = (44 + 2 * length [1%Z; (-2)%Z])%nat)
    by reflexivity.
  assert (H2 : length (replicate 48 0) = (44 + 2 * length [1%Z; (-2)%Z])%nat)
    by reflexivity.
  apply (encoder_deterministic LittleEndian "AQACAAMABAA=" _ 24000 1 _ _ H1 H2).
Defined.

(** ** Memory safety of the writer *)

Lemma header_stores_cover :
  flat_map touched header_stores = map Z.of_nat (seq 0 44).
Proof. reflexivity. Qed.

Lemma header_stores_in_header :
  Forall (fun w => 0 <= fst w /\ fst w + snd w <= 44) header_stores.
Proof.
  unfold header_stores, header_statement_stores. cbn [List.concat app].
  repeat constructor; cbn [fst snd]; lia.
Qed.

Lemma sample_store_touched (i : nat) :
  touched (sample_store i) = [44 + Z.of_nat i * 2; 44 + Z.of_nat i * 2 + 1].
Proof.
  unfold touched, sample_store. cbn [fst snd].
  change (Z.to_nat 2) with 2%nat. cbn [seq map].
  change (Z.of_nat 0) with 0. change (Z.of_nat 1) with 1.
  rewrite Z.add_0_r. reflexivity.
Qed.

(** C10.  On the buffer of 44 + 2n bytes that [encodeWAV] allocates for n
    samples, no store throws: the thirteen header statements store into
    offsets 0 to 43 only, each offset once and in increasing order, and the
    store of sample i touches offsets 44 + 2i and 44 + 2i + 1 only, for
    i < n; every store lies inside the buffer, and [encodeWAV] returns a
    blob for every sample array. *)
Theorem encodeWAV_stores_in_bounds
    (samples : list Z) (sampleRate numChannels : Z) :
  let n := length samples in
  let buffer := ArrayBuffer_new (44 + Z.of_nat n * 2) in
  exists view,
    encodeWAV_body (DataView_new buffer) samples sampleRate numChannels
      = Normal view /\
    length buffer = (44 + 2 * n)%nat /\
    length (bytes view) = (44 + 2 * n)%nat /\
    stores view = header_stores ++ map sample_store (seq 0 n) /\
    length header_statement_stores = 13%nat /\
    flat_map touched header_stores = map Z.of_nat (seq 0 44) /\
    (forall i, touched (sample_store i)
               = [44 + Z.of_nat i * 2; 44 + Z.of_nat i * 2 + 1]) /\
    Forall (fun w => 0 <= fst w /\ fst w + snd w <= Z.of_nat (44 + 2 * n))
           (stores view) /\
    encodeWAV samples sampleRate numChannels = Normal (Blob_new view "audio/wav").
Proof.
  cbn zeta.
  pose proof (ArrayBuffer_new_length samples) as Hlen.
  eexists. split; [apply encodeWAV_body_spec, Hlen|].
  cbn [bytes stores].
  split; [exact Hlen|].
  split.
  { rewrite length_app, canonical_header_length, flat_map_LE_i16_length.
    reflexivity. }
  split; [reflexivity|].
  split; [reflexivity|].
  split; [exact header_stores_cover|].
  split; [exact sample_store_touched|].
  split.
  { apply Forall_app. split.
    - eapply Forall_impl; [exact header_stores_in_header|].
      intros w Hw. cbn beta in Hw. lia.
    - apply List.Forall_map. apply List.Forall_forall.
      intros i Hi. apply in_seq in Hi. unfold sample_store. cbn [fst snd]. lia. }
  rewrite encodeWAV_spec. reflexivity.
Qed.

(** * Further properties of [utils/audio.ts] *)

(** ** [decode] *)

Lemma lookup_ascii_codes (s : string) (i : nat) :
  (i < String.length s)%nat ->
  ascii_codes s !! i = Some (ToUint8 (charCodeAt s i)).
Proof.
  intros H. destruct (get_in_range s i H) as [c Hc].
  unfold charCodeAt. rewrite Hc.
  pose proof (code_unit_byte c) as Hb. unfold is_byte in Hb.
  unfold ToUint8. rewrite Z.mod_small by lia.
  apply get_ascii_codes, Hc.
Qed.

(** The copy loop of [decode], with the first [i] bytes already stored. *)
Lemma decode_loop (s : string) :
  forall (count i : nat),
  (i + count = String.length s)%nat ->
  for_upto count i
    (fun i bytes => Normal (Uint8Array_set bytes i (charCodeAt s i)))
    (take i (ascii_codes s) ++ replicate count 0) =
  Normal (ascii_codes s).
Proof.
  induction count as [|count IH]; intros i Hi.
  - cbn [for_upto replicate]. rewrite app_nil_r.
    rewrite take_ge by (rewrite ascii_codes_length; lia). reflexivity.
  - cbn [for_upto bind replicate]. unfold Uint8Array_set.
    assert (Hlen : length (take i (ascii_codes s)) = i)
      by (rewrite length_take, ascii_codes_length; lia).
    rewrite insert_app_r_alt by lia.
    rewrite Hlen, Nat.sub_diag. cbn [insert list_insert].
    rewrite <- (IH (S i)) by lia.
    rewrite (take_S_r _ _ _ (lookup_ascii_codes s i ltac:(lia))).
    rewrite <- app_assoc. reflexivity.
Qed.

Lemma decode_atob (base64 : string) :
  decode base64 =
  match atob base64 with
  | Normal binaryString => Normal (ascii_codes binaryString)
  | Throw e => Throw e
  end.
Proof.
  unfold decode. destruct (atob base64) as [s|e]; [|reflexivity].
  cbn [bind]. unfold Uint8Array_new.
  apply (decode_loop s (String.length s) 0). reflexivity.
Qed.

Lemma atob_throws (base64 : string) (e : exception) :
  atob base64 = Throw e -> e = InvalidCharacterError.
Proof.
  unfold atob. destruct (forgiving_base64_decode _); [discriminate|].
  intros H. injection H as <-. reflexivity.
Qed.

(** X1.  When [atob] accepts the text, [decode] returns one byte per
    character of the binary string [atob] produces: byte [i] is that
    string's code unit [i], and there are as many bytes as characters. *)
Theorem decode_copies_binary_string (base64 binaryString : string) :
  atob base64 = Normal binaryString ->
  exists rawData,
    decode base64 = Normal rawData /\
    length rawData = String.length binaryString /\
    (forall i, (i < String.length binaryString)%nat ->
       rawData !! i = Some (charCodeAt binaryString i)) /\
    (forall i, (String.length binaryString <= i)%nat -> rawData !! i = None).
Proof.
  intros Hatob. exists (ascii_codes binaryString).
  split; [rewrite decode_atob, Hatob; reflexivity|].
  split; [apply ascii_codes_length|].
  split.
  - intros i Hi. destruct (get_in_range binaryString i Hi) as [c Hc].
    unfold charCodeAt. rewrite Hc. apply get_ascii_codes, Hc.
  - intros i Hi. apply lookup_ge_None. rewrite ascii_codes_length. lia.
Qed.

Lemma decode_copies_binary_string_witness :
  exists rawData,
    decode "/+8=" = Normal rawData /\ rawData !! 1%nat = Some 239.
Proof.
  destruct (atob "/+8=") as [s|e] eqn:E; [|vm_compute in E; discriminate].
  destruct (decode_copies_binary_string "/+8=" s E) as (rawData & Hd & Hl & Hi & _).
  exists rawData. split; [exact Hd|].
  assert (Es : s = binary_string [255; 239])
    by (vm_compute in E; injection E as <-; reflexivity).
  subst s. apply (Hi 1%nat). vm_compute. lia.
Defined.

(** ** [writeString] *)

Lemma write_at_length (bs buffer : list Z) (i : nat) :
  length (write_at i bs buffer) = length buffer.
Proof.
  revert i buffer. induction bs as [|b bs IH]; intros i buffer.
  - reflexivity.
  - cbn [write_at]. rewrite IH. apply length_insert.
Qed.

Lemma store_byteLength (view view' : DataView) (off : Z) (bs : list Z) :
  store view off bs = Normal view' ->
  length (bytes view') = length (bytes view).
Proof.
  unfold store. destruct (_ && _); [|discriminate].
  intros H. injection H as <-. cbn [bytes]. apply write_at_length.
Qed.

Lemma store_in_bounds (view : DataView) (off : Z) (bs : list Z) :
  0 <= off -> off + Z.of_nat (length bs) <= Z.of_nat (length (bytes view)) ->
  exists view', store view off bs = Normal view'.
Proof.
  intros H0 H1. unfold store.
  replace ((0 <=? off) && (off + Z.of_nat (length bs) <=? Z.of_nat (length (bytes view))))
    with true
    by (symmetry; apply andb_true_intro; split; apply Z.leb_le; lia).
  eexists. reflexivity.
Qed.

Lemma store_out_of_bounds (view : DataView) (off : Z) (bs : list Z) :
  off < 0 \/ Z.of_nat (length (bytes view)) < off + Z.of_nat (length bs) ->
  store view off bs = Throw RangeError.
Proof.
  intros H. unfold store.
  replace ((0 <=? off) && (off + Z.of_nat (length bs) <=? Z.of_nat (length (bytes view))))
    with false; [reflexivity|].
  symmetry. apply andb_false_iff.
  destruct H; [left; apply Z.leb_gt | right; apply Z.leb_gt]; lia.
Qed.

(** A [writeString] that fits, on any view. *)
Lemma writeString_fits (view : DataView) (offset : Z) (s : string) :
  0 <= offset ->
  offset + Z.of_nat (String.length s) <= Z.of_nat (length (bytes view)) ->
  writeString view offset s =
  Normal (mkDataView
            (take (Z.to_nat offset) (bytes view) ++ ascii_codes s
             ++ drop (Z.to_nat offset + String.length s) (bytes view))
            (stores view
             ++ map (fun j => (offset + Z.of_nat j, 1)) (seq 0 (String.length s)))).
Proof.
  intros H0 H1. destruct view as [b tr]. cbn [bytes stores] in *.
  assert (Hw : length (take (Z.to_nat offset) b) = Z.to_nat offset)
    by (rewrite length_take; lia).
  assert (Hb : b = take (Z.to_nat offset) b
                   ++ drop (length (take (Z.to_nat offset) b)) b)
    by (rewrite Hw, take_drop; reflexivity).
  rewrite Hb at 1.
  rewrite writeString_seq by (rewrite Hw; lia).
  rewrite length_app, Hw, ascii_codes_length, <- app_assoc. reflexivity.
Qed.

(** The loop of [writeString] once it is bound to run past the end. *)
Lemma writeString_loop_overrun (offset : Z) (s : string) :
  forall (count i : nat) (view : DataView),
  (0 < count)%nat ->
  offset + Z.of_nat i < 0 \/
  Z.of_nat (length (bytes view)) < offset + Z.of_nat i + Z.of_nat count ->
  for_upto count i
    (fun i view => setUint8 view (offset + Z.of_nat i) (charCodeAt s i))
    view = Throw RangeError.
Proof.
  induction count as [|count IH]; intros i view Hpos Hover; [lia|].
  cbn [for_upto]. unfold setUint8.
  destruct (Z_lt_le_dec (offset + Z.of_nat i) 0) as [Hneg|Hnn].
  { rewrite store_out_of_bounds by (left; exact Hneg). reflexivity. }
  destruct (Z_lt_le_dec (Z.of_nat (length (bytes view)))
              (offset + Z.of_nat i + 1)) as [Hend|Hroom].
  { rewrite store_out_of_bounds by (right; simpl; lia). reflexivity. }
  destruct (store_in_bounds view (offset + Z.of_nat i) [ToUint8 (charCodeAt s i)])
    as [view' E]; [lia | simpl; lia |].
  rewrite E. cbn [bind].
  apply IH; [lia|].
  rewrite (store_byteLength _ _ _ _ E). right. lia.
Qed.

(** X2.  A [writeString] that fits inside the view stores the code units
    of the string at [offset], [offset + 1], ..., keeps the length of the
    buffer and leaves every byte outside that range as it was. *)
Theorem writeString_in_bounds (view : DataView) (offset : Z) (s : string) :
  0 <= offset ->
  offset + Z.of_nat (String.length s) <= Z.of_nat (length (bytes view)) ->
  exists view',
    writeString view offset s = Normal view' /\
    length (bytes view') = length (bytes view) /\
    (forall i c, String.get i s = Some c ->
       bytes view' !! (Z.to_nat offset + i)%nat = Some (code_unit c)) /\
    (forall j, (j < Z.to_nat offset)%nat \/
               (Z.to_nat offset + String.length s <= j)%nat ->
       bytes view' !! j = bytes view !! j).
Proof.
  intros H0 H1. eexists. split; [apply writeString_fits; assumption|].
  cbn [bytes].
  assert (Hw : length (take (Z.to_nat offset) (bytes view)) = Z.to_nat offset)
    by (rewrite length_take; lia).
  split.
  { rewrite !length_app, Hw, ascii_codes_length, length_drop. lia. }
  split.
  - intros i c Hc.
    rewrite lookup_app_r by lia. rewrite Hw.
    replace (Z.to_nat offset + i - Z.to_nat offset)%nat with i by lia.
    rewrite lookup_app_l.
    + apply get_ascii_codes, Hc.
    + apply get_ascii_codes in Hc. apply lookup_lt_Some in Hc. exact Hc.
  - intros j [Hj|Hj].
    + rewrite lookup_app_l by lia. apply lookup_take_lt. lia.
    + rewrite lookup_app_r by lia. rewrite Hw.
      rewrite lookup_app_r by (rewrite ascii_codes_length; lia).
      rewrite ascii_codes_length, lookup_drop. f_equal. lia.
Qed.

Lemma writeString_in_bounds_witness :
  exists view',
    writeString (DataView_new [1; 2; 3; 4; 5; 6]) 1 "RIFF" = Normal view' /\
    bytes view' !! 4%nat = Some 70 /\ bytes view' !! 5%nat = Some 6.
Proof.
  assert (H0 : 0 <= 1) by lia.
  assert (H1 : 1 + Z.of_nat (String.length "RIFF")
               <= Z.of_nat (length (bytes (DataView_new [1; 2; 3; 4; 5; 6]))))
    by (vm_compute; discriminate).
  destruct (writeString_in_bounds _ 1 "RIFF" H0 H1) as (view' & E & _ & Hin & Hout).
  exists view'. split; [exact E|]. split.
  - apply (Hin 3%nat "F"%char). reflexivity.
  - rewrite (Hout 5%nat); [reflexivity|]. right. vm_compute. lia.
Defined.

(** X3.  [writeString] throws RangeError exactly when the string is not
    empty and its characters do not all lie inside the view: the offset is
    negative, or the string would end past the last byte.  An empty string
    is accepted at any offset. *)
Theorem writeString_throws_iff (view : DataView) (offset : Z) (s : string) :
  writeString view offset s = Throw RangeError <->
  s <> ""%string /\
  (offset < 0 \/
   Z.of_nat (length (bytes view)) < offset + Z.of_nat (String.length s)).
Proof.
  split.
  - intros Hthrow.
    destruct s as [|c s]; [discriminate Hthrow|].
    split; [discriminate|].
    destruct (Z_lt_le_dec offset 0) as [Hneg|Hnn]; [left; exact Hneg|].
    destruct (Z_lt_le_dec (Z.of_nat (length (bytes view)))
                (offset + Z.of_nat (String.length (String c s))))
      as [Hend|Hroom]; [right; exact Hend|].
    rewrite writeString_fits in Hthrow by assumption. discriminate.
  - intros [Hne Hout]. unfold writeString.
    apply writeString_loop_overrun.
    + destruct s; [contradiction|]. simpl. lia.
    + change (Z.of_nat 0) with 0. destruct Hout; [left | right]; lia.
Qed.

(** ** [encodeWAV] *)

Lemma int16_of_LE_i16 (x : Z) :
  int16_of_bytes LittleEndian (x mod 65536 mod 256) ((x mod 65536 / 256) mod 256)
  = ToInt16 x.
Proof.
  unfold int16_of_bytes, ToInt16.
  replace ((x mod 65536 mod 256 + 256 * ((x mod 65536 / 256) mod 256)) mod 65536)
    with (x mod 65536) by (Z.div_mod_to_equations; lia).
  reflexivity.
Qed.

Lemma int16_elements_LE_i16 (samples : list Z) :
  int16_elements LittleEndian (flat_map LE_i16 samples) = map ToInt16 samples.
Proof.
  induction samples as [|x samples IH]; [reflexivity|].
  cbn [flat_map map]. unfold LE_i16 at 1, LE_u16. cbn [app int16_elements].
  rewrite int16_of_LE_i16, IH. reflexivity.
Qed.

Lemma ToInt16_int16 (x : Z) : is_int16 x -> ToInt16 x = x.
Proof.
  unfold is_int16, ToInt16. intros H.
  destruct (Z.ltb_spec (x mod 65536) 32768); Z.div_mod_to_equations; lia.
Qed.

(** X4.  Round trip of the sample data: reading the bytes that follow the
    header of the blob as little-endian signed 16-bit integers gives back
    the samples [encodeWAV] was called with, when they are 16-bit values
    (as the elements of an [Int16Array] are). *)
Theorem wav_data_round_trip
    (samples : list Z) (sampleRate numChannels : Z) :
  Forall is_int16 samples ->
  exists blob,
    encodeWAV samples sampleRate numChannels = Normal blob /\
    Int16Array_new LittleEndian (drop 44 (blob_bytes blob)) = Normal samples.
Proof.
  intros Hrange. eexists. split; [apply encodeWAV_spec|].
  cbn [blob_bytes]. rewrite drop_header.
  rewrite Int16Array_new_even.
  - rewrite int16_elements_LE_i16. f_equal.
    induction Hrange as [|x l Hx Hl IH]; [reflexivity|].
    cbn [map]. rewrite ToInt16_int16 by exact Hx. rewrite IH. reflexivity.
  - exists (length samples). rewrite flat_map_LE_i16_length. reflexivity.
Qed.

Lemma wav_data_round_trip_witness :
  exists blob,
    encodeWAV [-32768; 32767; -1; 0] 24000 1 = Normal blob /\
    Int16Array_new LittleEndian (drop 44 (blob_bytes blob))
      = Normal [-32768; 32767; -1; 0].
Proof.
  apply (wav_data_round_trip [-32768; 32767; -1; 0] 24000 1).
  repeat constructor; unfold is_int16; lia.
Defined.

Lemma encodeWAV_length_spec (samples : list Z) (sampleRate numChannels : Z) :
  length (canonical_header (Z.of_nat (length samples)) sampleRate numChannels
          ++ flat_map LE_i16 samples) = (44 + 2 * length samples)%nat.
Proof.
  rewrite length_app, canonical_header_length, flat_map_LE_i16_length.
  reflexivity.
Qed.

(** X5.  While 36 + 2n stays below 2^32, the two size fields of the blob
    that [encodeWAV] returns for n samples describe the blob itself:
    ChunkSize is the number of bytes that follow it (the length of the blob
    minus 8) and Subchunk2Size is the number of bytes of sample data (the
    length of the blob minus 44). *)
Theorem size_fields_match_payload
    (samples : list Z) (sampleRate numChannels : Z) :
  36 + Z.of_nat (length samples) * 2 < 4294967296 ->
  exists blob,
    encodeWAV samples sampleRate numChannels = Normal blob /\
    u32_at (blob_bytes blob) 4 = Some (Z.of_nat (length (blob_bytes blob)) - 8) /\
    u32_at (blob_bytes blob) 40
      = Some (Z.of_nat (length (blob_bytes blob)) - 44) /\
    u32_at (blob_bytes blob) 40
      = Some (Z.of_nat (length (drop 44 (blob_bytes blob)))).
Proof.
  intros Hfit. eexists. split; [apply encodeWAV_spec|].
  cbn [blob_bytes]. rewrite drop_header, flat_map_LE_i16_length.
  rewrite encodeWAV_length_spec.
  destruct (header_size_fields (Z.of_nat (length samples)) sampleRate numChannels
              (flat_map LE_i16 samples)) as [H4 H40].
  cbn zeta in H4, H40. rewrite H4, H40.
  rewrite !Z.mod_small by lia.
  repeat split; f_equal; lia.
Qed.

Lemma size_fields_match_payload_witness :
  exists blob,
    encodeWAV [5; 6; 7] 8000 2 = Normal blob /\
    u32_at (blob_bytes blob) 4 = Some 42 /\
    u32_at (blob_bytes blob) 40 = Some 6.
Proof.
  assert (H : 36 + Z.of_nat (length [5; 6; 7]) * 2 < 4294967296)
    by (vm_compute; reflexivity).
  destruct (size_fields_match_payload [5; 6; 7] 8000 2 H)
    as (blob & E & H4 & H40 & _).
  exists blob. split; [exact E|].
  assert (Hb : length (blob_bytes blob) = 50%nat).
  { rewrite encodeWAV_spec in E. injection E as <-. reflexivity. }
  rewrite Hb in H4, H40. split; [exact H4 | exact H40].
Defined.

Lemma header_constant_fields (sampleCount sampleRate numChannels : Z) (data : list Z) :
  let b := canonical_header sampleCount sampleRate numChannels ++ data in
  u32_at b 16 = Some 16 /\ u16_at b 20 = Some 1 /\ u16_at b 34 = Some 16.
Proof. cbn zeta. repeat split. Qed.

(** X6.  For a sample rate below 2^32 and a channel count below 2^15 whose
    byte rate sampleRate * numChannels * 2 is below 2^32, no format field
    wraps: read back as numbers, NumChannels, SampleRate, ByteRate and
    BlockAlign are the arguments and their products, AudioFormat is 1,
    BitsPerSample 16 and the fmt chunk size 16, whatever the samples. *)
Theorem format_fields_read_back
    (samples : list Z) (sampleRate numChannels : Z) :
  0 <= sampleRate < 4294967296 ->
  0 <= numChannels < 32768 ->
  sampleRate * numChannels * 2 < 4294967296 ->
  exists blob,
    encodeWAV samples sampleRate numChannels = Normal blob /\
    let b := blob_bytes blob in
    u32_at b 16 = Some 16 /\
    u16_at b 20 = Some 1 /\
    u16_at b 22 = Some numChannels /\
    u32_at b 24 = Some sampleRate /\
    u32_at b 28 = Some (sampleRate * numChannels * 2) /\
    u16_at b 32 = Some (numChannels * 2) /\
    u16_at b 34 = Some 16.
Proof.
  intros Hsr Hnc Hbr. eexists. split; [apply encodeWAV_spec|].
  cbn [blob_bytes]. cbn zeta.
  destruct (header_format_fields (Z.of_nat (length samples)) sampleRate
              numChannels (flat_map LE_i16 samples)) as (H22 & H24 & H28 & H32).
  destruct (header_constant_fields (Z.of_nat (length samples)) sampleRate
              numChannels (flat_map LE_i16 samples)) as (H16 & H20 & H34).
  cbn zeta in *.
  rewrite H16, H20, H22, H24, H28, H32, H34.
  rewrite !Z.mod_small by nia.
  repeat split.
Qed.

Lemma format_fields_read_back_witness :
  exists blob,
    encodeWAV [1; 2] 44100 2 = Normal blob /\
    u32_at (blob_bytes blob) 28 = Some 176400 /\
    u16_at (blob_bytes blob) 32 = Some 4.
Proof.
  assert (H1 : 0 <= 44100 < 4294967296) by lia.
  assert (H2 : 0 <= 2 < 32768) by lia.
  assert (H3 : 44100 * 2 * 2 < 4294967296) by lia.
  destruct (format_fields_read_back [1; 2] 44100 2 H1 H2 H3)
    as (blob & E & _ & _ & _ & _ & H28 & H32 & _).
  exists blob. split; [exact E|]. split; [exact H28 | exact H32].
Defined.

Lemma LE_u16_bytes (x : Z) : Forall is_byte (LE_u16 x).
Proof.
  unfold LE_u16, is_byte. repeat constructor; apply Z.mod_pos_bound; lia.
Qed.

Lemma LE_u32_bytes (x : Z) : Forall is_byte (LE_u32 x).
Proof.
  unfold LE_u32, is_byte. repeat constructor; apply Z.mod_pos_bound; lia.
Qed.

Lemma ascii_codes_bytes (s : string) : Forall is_byte (ascii_codes s).
Proof.
  unfold ascii_codes. apply List.Forall_map.
  apply List.Forall_forall. intros c _. apply code_unit_byte.
Qed.

(** X7.  Whatever the samples, sample rate and channel count, integers of
    any size and sign, every element of the blob [encodeWAV] returns is a
    byte (between 0 and 255), and the blob is typed [audio/wav]. *)
Theorem encodeWAV_blob_well_formed
    (samples : list Z) (sampleRate numChannels : Z) :
  exists blob,
    encodeWAV samples sampleRate numChannels = Normal blob /\
    Forall is_byte (blob_bytes blob) /\
    blob_type blob = "audio/wav"%string.
Proof.
  eexists. split; [apply encodeWAV_spec|].
  cbn [blob_bytes blob_type]. split; [|reflexivity].
  apply Forall_app. split.
  - unfold canonical_header.
    repeat (apply Forall_app; split);
      first [apply ascii_codes_bytes | apply LE_u32_bytes | apply LE_u16_bytes].
  - induction samples as [|x samples IH]; [constructor|].
    cbn [flat_map]. apply Forall_app. split; [apply LE_u16_bytes | exact IH].
Qed.

(** ** [createWavBlob] *)

Lemma createWavBlob_atob (host : ByteOrder) (base64Audio : string) :
  createWavBlob host base64Audio =
  match atob base64Audio with
  | Throw e => Throw e
  | Normal binaryString =>
      let rawData := ascii_codes binaryString in
      if Z.of_nat (String.length binaryString) mod 2 =? 0 then
        let pcmData := int16_elements host rawData in
        Normal {| blob_bytes :=
                    canonical_header (Z.of_nat (length pcmData)) 24000 1
                    ++ flat_map LE_i16 pcmData;
                  blob_type := "audio/wav" |}
      else Throw RangeError
  end.
Proof.
  rewrite createWavBlob_run, decode_atob.
  destruct (atob base64Audio) as [s|e]; [|reflexivity].
  rewrite ascii_codes_length. reflexivity.
Qed.

(** X8.  The three outcomes of [createWavBlob].  It throws
    InvalidCharacterError exactly when [atob] rejects the text, throws
    RangeError exactly when [atob] accepts it and the decoded binary string
    has an odd number of characters, and returns a blob exactly when [atob]
    accepts it and that number is even. *)
Theorem createWavBlob_outcome (host : ByteOrder) (base64Audio : string) :
  (createWavBlob host base64Audio = Throw InvalidCharacterError <->
   atob base64Audio = Throw InvalidCharacterError) /\
  (createWavBlob host base64Audio = Throw RangeError <->
   exists binaryString,
     atob base64Audio = Normal binaryString /\
     Nat.Odd (String.length binaryString)) /\
  ((exists blob, createWavBlob host base64Audio = Normal blob) <->
   exists binaryString,
     atob base64Audio = Normal binaryString /\
     Nat.Even (String.length binaryString)).
Proof.
  rewrite createWavBlob_atob.
  destruct (atob base64Audio) as [s|e] eqn:Hatob.
  - cbn zeta.
    destruct (Z.eqb_spec (Z.of_nat (String.length s) mod 2) 0) as [He|Ho].
    + apply Even_mod in He.
      split; [split; discriminate|].
      split.
      * split; [discriminate|].
        intros (s' & Hs' & Hodd). injection Hs' as <-.
        apply Even_mod in He. apply Odd_mod in Hodd. lia.
      * split; [intros _; exists s; split; [reflexivity | exact He]|].
        intros _. eexists. reflexivity.
    + assert (Hodd : Nat.Odd (String.length s)).
      { apply Odd_mod. Z.div_mod_to_equations. lia. }
      split; [split; discriminate|].
      split.
      * split; [intros _; exists s; split; [reflexivity | exact Hodd]|].
        intros _. reflexivity.
      * split; [intros [blob Hb]; discriminate|].
        intros (s' & Hs' & Heven). injection Hs' as <-.
        apply Even_mod in Heven. contradiction.
  - apply atob_throws in Hatob as ->.
    split; [split; intros _; reflexivity|].
    split.
    + split; [discriminate|]. intros (s & Hs & _). discriminate.
    + split; [intros [blob Hb]; discriminate|].
      intros (s & Hs & _). discriminate.
Qed.

Lemma base64_values_foreign (data : list ascii) (c : ascii) :
  In c data -> base64_value c = None -> base64_values data = None.
Proof.
  induction data as [|d data IH]; intros Hin Hc; [contradiction|].
  cbn [base64_values]. destruct Hin as [->|Hin].
  - rewrite Hc. reflexivity.
  - rewrite (IH Hin Hc). destruct (base64_value d); reflexivity.
Qed.

Lemma remove_padding_keeps (data : list ascii) (c : ascii) :
  In c data -> is_pad c = false -> In c (remove_padding data).
Proof.
  intros Hin Hc. unfold remove_padding.
  assert (Hrev : In c (rev data)) by (apply in_rev; rewrite rev_involutive; exact Hin).
  destruct (rev data) as [|p [|q r]]; [exact Hin | |].
  - destruct (is_pad p) eqn:Hp; [|exact Hin].
    destruct Hrev as [->|[]]. congruence.
  - destruct (is_pad p) eqn:Hp; [|exact Hin].
    destruct Hrev as [->|Hrev]; [congruence|].
    destruct (is_pad q) eqn:Hq.
    + destruct Hrev as [->|Hrev]; [congruence|]. apply in_rev in Hrev.
      exact Hrev.
    + apply in_rev in Hrev. exact Hrev.
Qed.

Lemma forgiving_base64_decode_foreign (data : list ascii) (c : ascii) :
  In c data -> base64_value c = None ->
  ascii_whitespace c = false -> is_pad c = false ->
  forgiving_base64_decode data = None.
Proof.
  intros Hin Hval Hws Hpad. unfold forgiving_base64_decode.
  set (data1 := List.filter (fun c => negb (ascii_whitespace c)) data).
  assert (H1 : In c data1).
  { apply List.filter_In. split; [exact Hin|]. rewrite Hws. reflexivity. }
  set (data2 := if (length data1 mod 4 =? 0)%nat
                then remove_padding data1 else data1).
  assert (H2 : In c data2).
  { unfold data2. destruct (length data1 mod 4 =? 0)%nat;
      [apply remove_padding_keeps; assumption | exact H1]. }
  destruct (length data2 mod 4 =? 1)%nat; [reflexivity|].
  rewrite (base64_values_foreign data2 c H2 Hval). reflexivity.
Qed.

(** X9.  A text that contains a character which is neither in the base64
    alphabet, nor ASCII whitespace, nor [=] is rejected: [decode] throws
    InvalidCharacterError, and [createWavBlob] and [createWavUrl] pass the
    exception on, whatever the rest of the text is. *)
Theorem foreign_character_rejected
    (host : ByteOrder) (base64Audio : string) (c : ascii) (urls : list Blob) :
  In c (list_ascii_of_string base64Audio) ->
  base64_value c = None ->
  ascii_whitespace c = false ->
  is_pad c = false ->
  decode base64Audio = Throw InvalidCharacterError /\
  createWavBlob host base64Audio = Throw InvalidCharacterError /\
  createWavUrl host base64Audio urls = Throw InvalidCharacterError.
Proof.
  intros Hin Hval Hws Hpad.
  assert (Hatob : atob base64Audio = Throw InvalidCharacterError).
  { unfold atob.
    rewrite (forgiving_base64_decode_foreign _ c Hin Hval Hws Hpad).
    reflexivity. }
  assert (Hblob : createWavBlob host base64Audio = Throw InvalidCharacterError)
    by (rewrite createWavBlob_atob, Hatob; reflexivity).
  split; [rewrite decode_atob, Hatob; reflexivity|].
  split; [exact Hblob|].
  unfold createWavUrl. rewrite Hblob. reflexivity.
Qed.

Lemma foreign_character_rejected_witness :
  createWavBlob LittleEndian "AQAC-AMA" = Throw InvalidCharacterError.
Proof.
  apply (foreign_character_rejected LittleEndian "AQAC-AMA" "-"%char []).
  - simpl. tauto.
  - reflexivity.
  - reflexivity.
  - reflexivity.
Defined.

Lemma LE_i16_int16_of_bytes_be (b0 b1 : Z) :
  is_byte b0 -> is_byte b1 ->
  LE_i16 (int16_of_bytes BigEndian b0 b1) = [b1; b0].
Proof.
  intros H0 H1. unfold is_byte in *.
  unfold LE_i16, LE_u16, int16_of_bytes, ToInt16.
  destruct (Z.ltb_spec ((b1 + 256 * b0) mod 65536) 32768);
    (f_equal; [|f_equal]); Z.div_mod_to_equations; lia.
Qed.

Lemma samples_swapped (rawData : list Z) :
  Forall is_byte rawData -> Nat.Even (length rawData) ->
  flat_map LE_i16 (int16_elements BigEndian rawData) = swap_pairs rawData.
Proof.
  induction rawData as [| a | a b l IH] using pair_induction; intros Hb He.
  - reflexivity.
  - destruct He as [m Hm]. simpl in Hm. lia.
  - apply Forall_cons in Hb as [Ha Hb]. apply Forall_cons in Hb as [Hb Hl].
    cbn [int16_elements flat_map swap_pairs].
    rewrite LE_i16_int16_of_bytes_be by assumption.
    rewrite IH; [reflexivity | exact Hl |].
    destruct He as [m Hm]. exists (m - 1)%nat. simpl in Hm. lia.
Qed.

(** X10.  The sample data depend on the byte order of the host.  The
    typed array reads the decoded bytes in host order and [encodeWAV]
    stores little-endian, so on a big-endian host the blob carries, after
    the same 44-byte header as on a little-endian host, the decoded bytes
    with the two bytes of every sample exchanged. *)
Theorem big_endian_host_swaps_bytes (base64Audio : string) (rawData : list Z) :
  decode base64Audio = Normal rawData ->
  Nat.Even (length rawData) ->
  exists blob_le blob_be,
    createWavBlob LittleEndian base64Audio = Normal blob_le /\
    createWavBlob BigEndian base64Audio = Normal blob_be /\
    take 44 (blob_bytes blob_be) = take 44 (blob_bytes blob_le) /\
    drop 44 (blob_bytes blob_le) = rawData /\
    drop 44 (blob_bytes blob_be) = swap_pairs rawData.
Proof.
  intros Hdec Heven.
  destruct (decode_bytes _ _ Hdec) as [Hbytes _].
  pose proof Heven as Hmod. apply Even_mod in Hmod.
  eexists. eexists.
  split; [rewrite createWavBlob_run, Hdec, Hmod; reflexivity|].
  split; [rewrite createWavBlob_run, Hdec, Hmod; reflexivity|].
  cbn [blob_bytes]. rewrite !take_header, !drop_header.
  rewrite !int16_elements_length.
  split; [reflexivity|].
  split; [apply samples_pass_through | apply samples_swapped]; assumption.
Qed.

Lemma big_endian_host_swaps_bytes_witness :
  exists blob_be,
    createWavBlob BigEndian "NBL+/w==" = Normal blob_be /\
    drop 44 (blob_bytes blob_be) = [18; 52; 255; 254].
Proof.
  assert (Hdec : decode "NBL+/w==" = Normal [52; 18; 254; 255])
    by (vm_compute; reflexivity).
  assert (Heven : Nat.Even (length [52; 18; 254; 255]))
    by (exists 2%nat; reflexivity).
  destruct (big_endian_host_swaps_bytes "NBL+/w==" _ Hdec Heven)
    as (blob_le & blob_be & _ & E & _ & _ & Hdata).
  exists blob_be. split; [exact E | exact Hdata].
Defined.

Lemma int16_elements_bytes (host : ByteOrder) (rawData : list Z) :
  Nat.Even (length rawData) ->
  Z.of_nat (length (int16_elements host rawData)) * 2 = Z.of_nat (length rawData).
Proof.
  intros [m Hm]. rewrite int16_elements_length, Hm.
  rewrite Nat.mul_comm, Nat.div_mul by lia. lia.
Qed.

(** X11.  Every blob the facade returns starts with the same format
    description: bytes 8 to 39 are fixed (WAVE, fmt chunk of 16 bytes, PCM,
    one channel, 24000 Hz, byte rate 48000, block align 2, 16 bits, data),
    and, for a decoded input of fewer than 2^32 - 36 bytes, ChunkSize is 36
    plus the number of decoded bytes and Subchunk2Size is that number. *)
Theorem facade_header
    (host : ByteOrder) (base64Audio : string) (rawData : list Z) :
  decode base64Audio = Normal rawData ->
  Nat.Even (length rawData) ->
  36 + Z.of_nat (length rawData) < 4294967296 ->
  exists blob,
    createWavBlob host base64Audio = Normal blob /\
    field (blob_bytes blob) 8 32 =
      [87; 65; 86; 69; 102; 109; 116; 32; 16; 0; 0; 0; 1; 0; 1; 0;
       192; 93; 0; 0; 128; 187; 0; 0; 2; 0; 16; 0; 100; 97; 116; 97] /\
    u32_at (blob_bytes blob) 28 = Some 48000 /\
    u16_at (blob_bytes blob) 32 = Some 2 /\
    u32_at (blob_bytes blob) 4 = Some (36 + Z.of_nat (length rawData)) /\
    u32_at (blob_bytes blob) 40 = Some (Z.of_nat (length rawData)).
Proof.
  intros Hdec Heven Hfit.
  pose proof Heven as Hmod. apply Even_mod in Hmod.
  eexists. split; [rewrite createWavBlob_run, Hdec, Hmod; reflexivity|].
  cbn [blob_bytes].
  split; [reflexivity|]. split; [reflexivity|]. split; [reflexivity|].
  destruct (header_size_fields
              (Z.of_nat (length (int16_elements host rawData))) 24000 1
              (flat_map LE_i16 (int16_elements host rawData))) as [H4 H40].
  cbn zeta in H4, H40. rewrite H4, H40.
  rewrite (int16_elements_bytes host rawData Heven).
  rewrite !Z.mod_small by lia. split; reflexivity.
Qed.

Lemma facade_header_witness :
  exists blob,
    createWavBlob LittleEndian "AQACAAMABAA=" = Normal blob /\
    u32_at (blob_bytes blob) 4 = Some 44 /\
    u32_at (blob_bytes blob) 28 = Some 48000.
Proof.
  assert (Hdec : decode "AQACAAMABAA=" = Normal [1; 0; 2; 0; 3; 0; 4; 0])
    by (vm_compute; reflexivity).
  assert (Heven : Nat.Even (length [1; 0; 2; 0; 3; 0; 4; 0]))
    by (exists 4%nat; reflexivity).
  assert (Hfit : 36 + Z.of_nat (length [1; 0; 2; 0; 3; 0; 4; 0]) < 4294967296)
    by (vm_compute; reflexivity).
  destruct (facade_header LittleEndian "AQACAAMABAA=" _ Hdec Heven Hfit)
    as (blob & E & _ & H28 & _ & H4 & _).
  exists blob. split; [exact E|]. split; [exact H4 | exact H28].
Defined.

(** ** [createWavUrl] *)

Lemma createWavUrl_run (host : ByteOrder) (base64Audio : string) (urls : list Blob) :
  createWavUrl host base64Audio urls =
  match createWavBlob host base64Audio with
  | Normal blob => Normal (length urls, urls ++ [blob])
  | Throw e => Throw e
  end.
Proof.
  unfold createWavUrl. destruct (createWavBlob host base64Audio); reflexivity.
Qed.

Lemma lookup_snoc (urls : list Blob) (blob : Blob) :
  (urls ++ [blob]) !! length urls = Some blob.
Proof. rewrite lookup_app_r by lia. rewrite Nat.sub_diag. reflexivity. Qed.

(** X12.  A successful [createWavUrl] registers exactly one new entry in
    the URL store: the URL it returns was not in use before and now
    resolves to the blob [createWavBlob] builds from the same text, and
    every URL that resolved before still resolves to the same blob. *)
Theorem createWavUrl_registers
    (host : ByteOrder) (base64Audio : string)
    (urls urls' : list Blob) (url : nat) :
  createWavUrl host base64Audio urls = Normal (url, urls') ->
  exists blob,
    createWavBlob host base64Audio = Normal blob /\
    urls !! url = None /\
    urls' !! url = Some blob /\
    length urls' = S (length urls) /\
    (forall u old, urls !! u = Some old -> urls' !! u = Some old).
Proof.
  rewrite createWavUrl_run.
  destruct (createWavBlob host base64Audio) as [blob|e]; [|discriminate].
  intros H. injection H as <- <-.
  exists blob. split; [reflexivity|].
  split; [apply lookup_ge_None; lia|].
  split; [apply lookup_snoc|].
  split; [rewrite length_app; simpl; lia|].
  intros u old Hu. apply lookup_app_l_Some. exact Hu.
Qed.

Lemma createWavUrl_registers_witness :
  exists url urls' blob,
    createWavUrl LittleEndian "AQACAAMABAA=" [] = Normal (url, urls') /\
    urls' !! url = Some blob.
Proof.
  destruct (createWavUrl LittleEndian "AQACAAMABAA=" []) as [[url urls']|e] eqn:E;
    [|vm_compute in E; discriminate].
  destruct (createWavUrl_registers LittleEndian "AQACAAMABAA=" [] urls' url E)
    as (blob & _ & _ & H & _).
  exists url, urls', blob. split; [reflexivity | exact H].
Defined.

(** X13.  Nothing is reused between calls: when [createWavUrl] has
    succeeded on a text, calling it again on the same text succeeds again
    and returns a different URL; both URLs then resolve, to byte-identical
    blobs, and the store holds two entries more than at the start. *)
Theorem createWavUrl_twice
    (host : ByteOrder) (base64Audio : string)
    (urls urls1 : list Blob) (url1 : nat) :
  createWavUrl host base64Audio urls = Normal (url1, urls1) ->
  exists url2 urls2 blob,
    createWavUrl host base64Audio urls1 = Normal (url2, urls2) /\
    url1 <> url2 /\
    urls2 !! url1 = Some blob /\
    urls2 !! url2 = Some blob /\
    length urls2 = S (S (length urls)).
Proof.
  rewrite !createWavUrl_run.
  destruct (createWavBlob host base64Audio) as [blob|e]; [|discriminate].
  intros H. injection H as <- <-.
  exists (length (urls ++ [blob])), ((urls ++ [blob]) ++ [blob]), blob.
  split; [reflexivity|].
  split; [rewrite length_app; simpl; lia|].
  split; [apply lookup_app_l_Some, lookup_snoc|].
  split; [apply lookup_snoc|].
  rewrite !length_app. simpl. lia.
Qed.

Lemma createWavUrl_twice_witness :
  exists url1 urls1 url2 urls2,
    createWavUrl BigEndian "AQACAAMABAA=" [] = Normal (url1, urls1) /\
    createWavUrl BigEndian "AQACAAMABAA=" urls1 = Normal (url2, urls2) /\
    url1 <> url2.
Proof.
  destruct (createWavUrl BigEndian "AQACAAMABAA=" []) as [[url1 urls1]|e] eqn:E;
    [|vm_compute in E; discriminate].
  destruct (createWavUrl_twice BigEndian "AQACAAMABAA=" [] urls1 url1 E)
    as (url2 & urls2 & blob & E2 & Hne & _).
  exists url1, urls1, url2, urls2.
  split; [reflexivity|]. split; [exact E2 | exact Hne].
Defined.

(** ** [handleLoadHistory] *)

Lemma createWavBlob_accepts
    (host : ByteOrder) (base64Audio binaryString : string) :
  atob base64Audio = Normal binaryString ->
  Nat.Even (String.length binaryString) ->
  exists blob, createWavBlob host base64Audio = Normal blob.
Proof.
  intros Hatob Heven. rewrite createWavBlob_atob, Hatob.
  apply Even_mod in Heven. cbn zeta. rewrite Heven.
  eexists. reflexivity.
Qed.

(** X14.  Loading a history item whose audio text [atob] accepts with an
    even number of decoded bytes succeeds: title, script and audio URL of
    the state all come from the item, the audio URL is new and resolves to
    the WAV blob of the item's audio, the history and the transcript are
    untouched, and no earlier URL, the one of the audio shown before
    included, is released. *)
Theorem handleLoadHistory_loads_item
    (host : ByteOrder) (item : App.HistoryItem.t) (st : App.State)
    (urls : list Blob) (binaryString : string) :
  atob (App.HistoryItem.audioBase64 item) = Normal binaryString ->
  Nat.Even (String.length binaryString) ->
  exists blob st' urls',
    createWavBlob host (App.HistoryItem.audioBase64 item) = Normal blob /\
    App.handleLoadHistory host item st urls = Normal (st', urls') /\
    App.title st' = App.HistoryItem.title item /\
    App.recapScript st' = App.HistoryItem.script item /\
    App.audioUrl st' = Some (length urls) /\
    urls' !! length urls = Some blob /\
    App.history st' = App.history st /\
    App.transcript st' = App.transcript st /\
    length urls' = S (length urls) /\
    (forall u old, urls !! u = Some old -> urls' !! u = Some old).
Proof.
  intros Hatob Heven.
  destruct (createWavBlob_accepts host _ _ Hatob Heven) as [blob Hblob].
  exists blob. eexists. eexists.
  split; [exact Hblob|].
  split.
  { unfold App.handleLoadHistory. rewrite createWavUrl_run, Hblob.
    cbn [bind fst snd]. reflexivity. }
  cbn [App.title App.recapScript App.audioUrl App.history App.transcript
       App.setAudioUrl App.setRecapScript App.setTitle].
  repeat split.
  - apply lookup_snoc.
  - rewrite length_app. simpl. lia.
  - intros u old Hu. apply lookup_app_l_Some. exact Hu.
Qed.

Lemma handleLoadHistory_loads_item_witness :
  exists st' urls',
    App.handleLoadHistory LittleEndian
      (App.HistoryItem.mk 1 "t" "s" "AQACAAMABAA=" "2026")
      (App.mkState "" "" "" None []) [] = Normal (st', urls') /\
    App.audioUrl st' = Some 0%nat /\
    App.title st' = "t"%string.
Proof.
  destruct (atob "AQACAAMABAA=") as [s|e] eqn:E; [|vm_compute in E; discriminate].
  assert (Heven : Nat.Even (String.length s)).
  { exists 4%nat. vm_compute in E. injection E as <-. reflexivity. }
  destruct (handleLoadHistory_loads_item LittleEndian
              (App.HistoryItem.mk 1 "t" "s" "AQACAAMABAA=" "2026")
              (App.mkState "" "" "" None []) [] s E Heven)
    as (blob & st' & urls' & _ & H & Ht & _ & Ha & _).
  exists st', urls'. split; [exact H|]. split; [exact Ha | exact Ht].
Defined.
